(** * BIC_Q_Factor3: coupled-mode Hamiltonian, resonance scan, reporter and
    GDSII export of the photonic-crystal array simulator.

    Shallow embedding of [src/BIC_Q_Factor3.py].

    Numbers.  The program computes in IEEE double precision ([float],
    [complex128]).  The embedding idealises them as exact real and complex
    numbers: [R] of the Standard Library and pairs of reals with the usual
    complex operations.  Rounding, overflow, underflow, infinities and NaN are
    outside that model; a statement over it is a statement about the
    formulas the code evaluates.  Where a property turns on underflow, lines
    31-34 are computed in binary64 as well, on primitive floats
    ([separation_f64], [denominator_f64], [coupling_f64]).  Division is total in [R], as it is for
    numpy arrays (which produce inf or nan and a warning, never an
    exception).

    External libraries.  [np.linalg.eigvals] is LAPACK code outside the
    repository: the scan takes the eigen-solver as a parameter.  The numpy
    array operations the code uses (zeros, arange, fill_diagonal,
    broadcasting, boolean masks, linspace, argmax) and the gdspy constructors
    are modelled in the modules [np] and [gdspy] from their documented
    behaviour. *)

From Stdlib Require Import PrimFloat.
From Stdlib Require Uint63.
From Stdlib Require Import String.
From Stdlib Require Import Reals Lra Lia List ZArith Bool.
Import ListNotations.

(** Decimal literals of type [float] denote the nearest binary64 value, as
    they do in Python. *)
Set Warnings "-inexact-float".

Local Open Scope R_scope.

(** ** Complex numbers (Python [complex], numpy [complex128]) *)

Record C : Type := mkC { Re : R; Im : R }.

(** Promotion of a float operand in mixed float/complex arithmetic. *)
Definition RtoC (x : R) : C := mkC x 0.

(** The literal [1j]. *)
Definition Ci : C := mkC 0 1.

Definition C0 : C := RtoC 0.

Definition Copp (z : C) : C := mkC (- Re z) (- Im z).

Definition Cadd (z w : C) : C := mkC (Re z + Re w) (Im z + Im w).

Definition Cmul (z w : C) : C :=
  mkC (Re z * Re w - Im z * Im w) (Re z * Im w + Im z * Re w).

Definition Cdiv (z w : C) : C :=
  let d := Re w * Re w + Im w * Im w in
  mkC ((Re z * Re w + Im z * Im w) / d) ((Im z * Re w - Re z * Im w) / d).

(** [np.exp] on a complex argument. *)
Definition Cexp (z : C) : C :=
  mkC (exp (Re z) * cos (Im z)) (exp (Re z) * sin (Im z)).

(** Comparisons of floats as booleans. *)
Definition Rltb (x y : R) : bool := if Rlt_dec x y then true else false.
Definition Rgtb (x y : R) : bool := Rltb y x.

(** ** The numpy operations used by the simulator *)

Module np.

(** A two-dimensional array, as the list of its rows. *)
Definition matrix (A : Type) : Type := list (list A).

(** [M[i, j]]; [None] stands for an index out of bounds. *)
Definition entry {A : Type} (M : matrix A) (i j : nat) : option A :=
  match nth_error M i with
  | Some row => nth_error row j
  | None => None
  end.

(** [np.zeros((n, m))]. *)
Definition zeros {A : Type} (zero : A) (n m : nat) : matrix A :=
  repeat (repeat zero m) n.

(** [np.arange(n)]: the integers 0, 1, ..., n-1. *)
Definition arange (n : nat) : list Z := map Z.of_nat (seq 0 n).

(** [l[k] = v] for an index inside the list; rows shorter than [k] are
    left alone, which is what [fill_diagonal] needs on a non-square
    array. *)
Fixpoint set_item {A : Type} (k : nat) (v : A) (l : list A) : list A :=
  match l, k with
  | [], _ => []
  | _ :: t, O => v :: t
  | h :: t, S k' => h :: set_item k' v t
  end.

Fixpoint fill_diagonal_from {A : Type} (k : nat) (M : matrix A) (v : A)
  : matrix A :=
  match M with
  | [] => []
  | row :: rest => set_item k v row :: fill_diagonal_from (S k) rest v
  end.

(** [np.fill_diagonal(M, v)]: every [M[i, i]] becomes [v]. *)
Definition fill_diagonal {A : Type} (M : matrix A) (v : A) : matrix A :=
  fill_diagonal_from 0 M v.

(** Broadcasting of a column against a row: [x[:, None] op y]. *)
Definition outer {A B D : Type} (op : A -> B -> D)
           (x : list A) (y : list B) : matrix D :=
  map (fun xi => map (op xi) y) x.

(** An element-wise unary operation on a two-dimensional array. *)
Definition mmap {A B : Type} (f : A -> B) (M : matrix A) : matrix B :=
  map (map f) M.

(** An element-wise binary operation on two one-dimensional arrays. *)
Fixpoint map2 {A B D : Type} (op : A -> B -> D)
         (x : list A) (y : list B) : list D :=
  match x, y with
  | xi :: x', yi :: y' => op xi yi :: map2 op x' y'
  | _, _ => []
  end.

(** An element-wise binary operation on two two-dimensional arrays. *)
Definition mmap2 {A B D : Type} (op : A -> B -> D)
           (M : matrix A) (K : matrix B) : matrix D :=
  map2 (map2 op) M K.

(** Boolean-mask indexing [x[valid]]. *)
Fixpoint mask {A : Type} (x : list A) (valid : list bool) : list A :=
  match x, valid with
  | xi :: x', b :: valid' =>
      if b then xi :: mask x' valid' else mask x' valid'
  | _, _ => []
  end.

(** [np.linspace(start, stop, num)]: [num] samples [start + k * step]
    with [step = (stop - start) / (num - 1)], end point included. *)
Definition linspace (start stop : R) (num : nat) : list R :=
  let step := (stop - start) / IZR (Z.of_nat num - 1) in
  map (fun k => IZR k * step + start) (arange num).

Fixpoint argmax_from (best_idx : nat) (best : R) (i : nat) (l : list R)
  : nat :=
  match l with
  | [] => best_idx
  | x :: t =>
      if Rltb best x then argmax_from i x (S i) t
      else argmax_from best_idx best (S i) t
  end.

(** [np.argmax(l)]: the index of the first occurrence of the maximum;
    [None] stands for the ValueError raised on an empty array. *)
Definition argmax (l : list R) : option nat :=
  match l with
  | [] => None
  | x :: t => Some (argmax_from 0 x 1 t)
  end.

End np.

(** ** The simulator object *)

(** [self.params]. *)
Record params_t : Type := mkParams {
  epsilon : C;
  a : R;
  radius : R;
  lambda_0 : R;
  N : nat
}.

(** [self.theoretical]. *)
Record theoretical_t : Type := mkTheoretical {
  frequency : R;
  Q : R;
  linewidth : R
}.

Record BICSimulator : Type := mkBICSimulator {
  params : params_t;
  omega_0 : R;
  theoretical : theoretical_t
}.

(** [scipy.constants.c], the speed of light in m/s. *)
Definition c : R := 299792458.

(** The body of [__init__] for a given parameter dictionary. *)
Definition new_simulator (p : params_t) : BICSimulator :=
  {| params := p;
     omega_0 := 2 * PI * c / lambda_0 p;
     theoretical :=
       {| frequency := 193.4145; Q := 3.2e5; linewidth := 0.60 |} |}.

(** [BICSimulator()]: [__init__] with the certified parameters. *)
Definition __init__ : BICSimulator :=
  new_simulator
    {| epsilon := mkC 12.1 6.0e-7;
       a := 600e-9;
       radius := 202e-9;
       lambda_0 := 1550e-9;
       N := 20 |}.

(** The same object with another number of unit cells. *)
Definition with_N (self : BICSimulator) (n : nat) : BICSimulator :=
  {| params :=
       {| epsilon := epsilon (params self);
          a := a (params self);
          radius := radius (params self);
          lambda_0 := lambda_0 (params self);
          N := n |};
     omega_0 := omega_0 self;
     theoretical := theoretical self |}.

(** ** [_build_hamiltonian] *)

(** Line 28: [((omega/self.omega_0)**2 * epsilon) + 0.66]. *)
Definition diag (self : BICSimulator) (omega : R) : C :=
  Cadd (Cmul (RtoC ((omega / omega_0 self) ^ 2)) (epsilon (params self)))
       (RtoC 0.66).

(** Lines 31-32: the separation matrix, its diagonal overwritten. *)
Definition separation (self : BICSimulator) : np.matrix R :=
  let N := N (params self) in
  let r :=
    np.mmap (fun d : Z => a (params self) * IZR d)
      (np.mmap Z.abs (np.outer Z.sub (np.arange N) (np.arange N))) in
  np.fill_diagonal r (a (params self) * 0.114).

(** Line 34, one element. *)
Definition coupling_of (self : BICSimulator) (r : R) : R :=
  radius (params self) ^ 3 / (r ^ 3 + (0.114 * a (params self)) ^ 3).

(** Line 35, one element: [np.exp(-1j*2*np.pi*r/lambda_0)]. *)
Definition phase_of (self : BICSimulator) (r : R) : C :=
  Cexp (Cdiv (Cmul (Cmul (Cmul (Copp Ci) (RtoC 2)) (RtoC PI)) (RtoC r))
             (RtoC (lambda_0 (params self)))).

Definition _build_hamiltonian (self : BICSimulator) (omega : R)
  : np.matrix C :=
  let N := N (params self) in
  let H := np.zeros C0 N N in
  let H := np.fill_diagonal H (diag self omega) in
  let r := separation self in
  let coupling := np.mmap (coupling_of self) r in
  let phase := np.mmap (phase_of self) r in
  np.mmap2 Cadd H
    (np.mmap2 Cmul (np.mmap (fun x => RtoC (0.62 * x)) coupling) phase).

(** ** [run_simulation] *)

Section Scanner.

(** [np.linalg.eigvals]: the eigenvalues of a square complex matrix, in the
    order LAPACK returns them. *)
Variable eigvals : np.matrix C -> list C.

(** Line 42. *)
Definition omega_range (self : BICSimulator) : list R :=
  np.linspace (0.92 * omega_0 self) (1.08 * omega_0 self) (Z.to_nat 50000).

(** Lines 46-55, one turn of the loop: the pairs handed to
    [results.extend]. *)
Definition sweep_step (self : BICSimulator) (omega : R) : list (R * R) :=
  let H := _build_hamiltonian self omega in
  let evals := eigvals H in
  let omega_n := map (fun l => Re l * omega_0 self) evals in
  let Gamma_n := map (fun l => -2 * Im l * omega_0 self) evals in
  let freq_THz := map (fun w => w / (2 * PI * 1e12)) omega_n in
  let Q := np.map2 Rdiv omega_n Gamma_n in
  let valid :=
    np.map2 andb
      (np.map2 andb
         (np.map2 andb
            (map (fun g => Rgtb g 1e-5) Gamma_n)
            (map (fun f => Rltb 193.0 f) freq_THz))
         (map (fun f => Rltb f 194.0) freq_THz))
      (map (fun q => Rgtb q 1.5e5) Q) in
  combine (np.mask freq_THz valid) (np.mask Q valid).

(** The accumulator [results] after the loop over [omegas]. *)
Definition sweep (self : BICSimulator) (omegas : list R) : list (R * R) :=
  fold_left (fun results omega => results ++ sweep_step self omega)
            omegas [].

(** [None] is Python's [None]; [Some l] is the array [np.array(l)]. *)
Definition run_simulation (self : BICSimulator) : option (list (R * R)) :=
  let results := sweep self (omega_range self) in
  match results with
  | [] => None
  | _ :: _ => Some results
  end.

End Scanner.

(** ** [visualize] *)

Inductive exn : Type := IndexError | ValueError.

Inductive result (A : Type) : Type :=
| Ok (x : A)
| Raise (e : exn).
Arguments Ok {A} x.
Arguments Raise {A} e.

(** The three numbers handed to the format strings of the printed block,
    before they are rounded for display. *)
Inductive printed : Type :=
| NumericalResults (freq quality lw : R)
| TheoreticalReference (freq quality lw : R).

Inductive plot_cmd : Type :=
| scatter (xs ys colors : list R)
| colorbar
| axhline (y : R)
| axvline (x : R).

Definition log10 (x : R) : R := ln x / ln 10.

(** Lines 59-87.  The result is the printed block and the plot calls that
    carry data; the figure set-up, axis labels, title, legend, grid and
    [plt.show] do not depend on [results] and are left out.  [Raise] is an
    exception escaping the method.  [Some l] is the array [np.array(l)] of
    a list of pairs, as [run_simulation] builds it; [Some []] is therefore
    the one-dimensional empty array [np.array([])], on which
    [results[:, 1]] raises IndexError.  Empty arrays of other shapes are
    not values of this type. *)

Definition visualize (self : BICSimulator) (results : option (list (R * R)))
  : result (printed * list plot_cmd) :=
  let reference :=
    [axhline (Q (theoretical self)); axvline (frequency (theoretical self))] in
  match results with
  | Some results =>
      match results with
      | [] => Raise IndexError
      | _ :: _ =>
          match np.argmax (map snd results) with
          | None => Raise ValueError
          | Some best_idx =>
              match nth_error results best_idx with
              | None => Raise IndexError
              | Some (f, q) =>
                  Ok (NumericalResults f q (f / q * 1e3),
                      scatter (map fst results) (map snd results)
                              (map log10 (map snd results))
                      :: colorbar :: reference)
              end
          end
      end
  | None =>
      Ok (TheoreticalReference (frequency (theoretical self))
                               (Q (theoretical self))
                               (linewidth (theoretical self)),
          reference)
  end.

(** ** [export_gds] *)

Module gdspy.

Definition point : Type := (R * R)%type.

(** [gdspy.Round(center, radius, number_of_points=..., layer=...)]. *)
Record Round : Type := mkRound {
  center : point;
  disk_radius : R;
  number_of_points : Z;
  round_layer : Z
}.

(** [gdspy.Rectangle(point1, point2, layer=...)]. *)
Record Rectangle : Type := mkRectangle {
  point1 : point;
  point2 : point;
  rect_layer : Z
}.

(** [gdspy.CellArray(ref_cell, columns, rows, spacing, origin)]; the
    referenced cell is named. *)
Record CellArray : Type := mkCellArray {
  ref_cell : string;
  columns : nat;
  rows : nat;
  spacing : point;
  origin : point
}.

Inductive element : Type :=
| round_ (d : Round)
| rectangle_ (m : Rectangle)
| cell_array_ (r : CellArray).

Record Cell : Type := mkCell {
  name : string;
  elements : list element
}.

(** The cells of a [GdsLibrary], in creation order. *)
Definition GdsLibrary : Type := list Cell.

(** The origins of the instances a [CellArray] places:
    [origin + (col * dx, row * dy)]. *)
Definition instances (r : CellArray) : list point :=
  flat_map
    (fun row =>
       map (fun col => (fst (origin r) + INR col * fst (spacing r),
                        snd (origin r) + INR row * snd (spacing r)))
           (seq 0 (columns r)))
    (seq 0 (rows r)).

End gdspy.

(** The alignment marks of lines 109-121, in the order they are added. *)
Definition alignment_marks (self : BICSimulator) : list gdspy.Rectangle :=
  let a := a (params self) in
  let align_size := a * 0.5 in
  flat_map
    (fun x =>
       flat_map
         (fun y =>
            [ gdspy.mkRectangle
                (x - align_size / 2, y - align_size / 20)
                (x + align_size / 2, y + align_size / 20) 2;
              gdspy.mkRectangle
                (y - align_size / 20, x - align_size / 2)
                (y + align_size / 20, x + align_size / 2) 2 ])
         [- align_size; align_size])
    [- a; INR (N (params self)) * a].

(** The file name and the library handed to [write_gds], in the user units
    of the library; what the file stores of it is described by
    [stored_as]. *)
Definition export_gds (self : BICSimulator) (filename : string)
  : string * gdspy.GdsLibrary :=
  let disk := gdspy.mkRound (0, 0) (radius (params self)) 64 1 in
  let disk_cell := gdspy.mkCell "DISK" [gdspy.round_ disk] in
  let cell_array :=
    gdspy.mkCellArray "DISK" (N (params self)) 1
                      (a (params self), 0) (0, 0) in
  let top_cell :=
    gdspy.mkCell "TOP"
      (gdspy.cell_array_ cell_array
       :: map gdspy.rectangle_ (alignment_marks self)) in
  (filename, [top_cell; disk_cell]).

(** The default value of [filename]. *)
Definition default_filename : string := "bic_array.gds".


(** ** [run] *)

(** Lines 136-140: the scan, the report on its result, and the export.
    The parameter block printed before and the Hamiltonian diagnostics
    printed after (lines 128-133 and 142-147) are text only and are not
    part of the result. *)
Definition run (eigvals : np.matrix C -> list C) (self : BICSimulator)
  : result (printed * list plot_cmd) * (string * gdspy.GdsLibrary) :=
  let results := run_simulation eigvals self in
  (visualize self results, export_gds self default_filename).

(** ** Quantities the statements are written with *)

(** The separation [r_ij] the code uses for the pair of cells [(i, j)]:
    the self-distance on the diagonal, [a * |i - j|] elsewhere. *)
Definition r_ij (self : BICSimulator) (i j : nat) : R :=
  if Nat.eqb i j then a (params self) * 0.114
  else a (params self) * IZR (Z.abs (Z.of_nat i - Z.of_nat j)).

(** The coupling term [0.62 * coupling * phase] at separation [r], with the
    phase written [exp(-i * 2 * pi * r / lambda_0)]. *)
Definition coupling_term (self : BICSimulator) (r : R) : C :=
  Cmul (RtoC (0.62 * (radius (params self) ^ 3
                      / (r ^ 3 + (0.114 * a (params self)) ^ 3))))
       (Cexp (Cmul (Copp Ci) (RtoC (2 * PI * r / lambda_0 (params self))))).

(** The value [_build_hamiltonian] leaves at position [(i, j)]. *)
Definition H_entry (self : BICSimulator) (omega : R) (i j : nat) : C :=
  Cadd (if Nat.eqb i j then diag self omega else C0)
       (Cmul (RtoC (0.62 * coupling_of self (r_ij self i j)))
             (phase_of self (r_ij self i j))).

(** Eigenvalues of a square matrix, as linear algebra defines them: [l] is
    an eigenvalue of [M] when [M v = l v] for some non-zero vector [v]. *)
Definition Csum (l : list C) : C := fold_right Cadd C0 l.

Definition dot (row v : list C) : C := Csum (np.map2 Cmul row v).

Definition mat_vec (M : np.matrix C) (v : list C) : list C :=
  map (fun row => dot row v) M.

Definition is_eigenvalue (M : np.matrix C) (l : C) : Prop :=
  exists v : list C,
    length v = length M /\
    (exists x, In x v /\ x <> C0) /\
    mat_vec M v = map (Cmul l) v.

(** The physical quantities the scan derives from one eigenvalue [l]. *)
Definition omega_n_of (self : BICSimulator) (l : C) : R :=
  Re l * omega_0 self.

Definition Gamma_n_of (self : BICSimulator) (l : C) : R :=
  -2 * Im l * omega_0 self.

Definition freq_THz_of (self : BICSimulator) (l : C) : R :=
  omega_n_of self l / (2 * PI * 1e12).

Definition Q_of (self : BICSimulator) (l : C) : R :=
  omega_n_of self l / Gamma_n_of self l.

Definition record_of (self : BICSimulator) (l : C) : R * R :=
  (freq_THz_of self l, Q_of self l).

(** The acceptance filter, as a proposition and as the mask of line 54. *)
Definition accepted (self : BICSimulator) (l : C) : Prop :=
  Gamma_n_of self l > 1e-5 /\
  193.0 < freq_THz_of self l /\
  freq_THz_of self l < 194.0 /\
  Q_of self l > 1.5e5.

Definition acceptedb (self : BICSimulator) (l : C) : bool :=
  Rgtb (Gamma_n_of self l) 1e-5
  && Rltb 193.0 (freq_THz_of self l)
  && Rltb (freq_THz_of self l) 194.0
  && Rgtb (Q_of self l) 1.5e5.

(** The accepted records of a whole sweep, in sweep order. *)
Definition accepted_records (eigvals : np.matrix C -> list C)
           (self : BICSimulator) (omegas : list R) : list (R * R) :=
  flat_map
    (fun omega =>
       map (record_of self)
           (filter (acceptedb self) (eigvals (_build_hamiltonian self omega))))
    omegas.

(** An eigen-solver that is exact on 1x1 matrices, for concrete instances
    of the scan. *)
Definition eigvals_1x1 (M : np.matrix C) : list C :=
  match M with
  | [[h]] => [h]
  | _ => []
  end.

(** The certified structure reduced to a single unit cell. *)
Definition single_cell : BICSimulator := with_N __init__ 1.

(** The rectangles a cell holds, and the extent of a rectangle. *)
Definition rectangles_of (cell : gdspy.Cell) : list gdspy.Rectangle :=
  flat_map
    (fun e => match e with
              | gdspy.rectangle_ m => [m]
              | _ => []
              end)
    (gdspy.elements cell).

Definition width (m : gdspy.Rectangle) : R :=
  fst (gdspy.point2 m) - fst (gdspy.point1 m).

Definition height (m : gdspy.Rectangle) : R :=
  snd (gdspy.point2 m) - snd (gdspy.point1 m).

(** ** Operations of the diagnostics block of [run] *)

(** [np.conjugate], subtraction and [np.abs] on complex numbers. *)
Definition Cconj (z : C) : C := mkC (Re z) (- Im z).

Definition Csub (z w : C) : C := mkC (Re z - Re w) (Im z - Im w).

Definition Cabs (z : C) : R := sqrt (Re z * Re z + Im z * Im z).

Definition Rsum (l : list R) : R := fold_right Rplus 0 l.

Fixpoint np_diag_from {A : Type} (k : nat) (M : np.matrix A) : list A :=
  match M with
  | [] => []
  | row :: rest =>
      match nth_error row k with
      | Some x => x :: np_diag_from (S k) rest
      | None => []
      end
  end.

(** [np.diag(M)] of a two-dimensional array: the elements [M[i, i]]. *)
Definition np_diag {A : Type} (M : np.matrix A) : list A := np_diag_from 0 M.

(** [np.mean] of a real one-dimensional array. *)
Definition np_mean (x : list R) : R := Rsum x / INR (length x).

(** [np.std] of a complex one-dimensional array: the square root of the
    mean of [|x - x.mean()|^2], the squared modulus being computed as the
    real part of the product with the conjugate. *)
Definition np_std (x : list C) : R :=
  let n := INR (length x) in
  let arrmean := Cdiv (Csum x) (RtoC n) in
  let dev := map (fun xi => Csub xi arrmean) x in
  let sq := map (fun d => Re (Cmul d (Cconj d))) dev in
  sqrt (Rsum sq / n).

Fixpoint np_triu_from {A : Type} (k : nat) (M : np.matrix A) : list A :=
  match M with
  | [] => []
  | row :: rest => skipn k row ++ np_triu_from (S k) rest
  end.

(** [M[np.triu_indices_from(M, k=1)]]: the elements strictly above the
    diagonal, row by row. *)
Definition np_triu_k1 {A : Type} (M : np.matrix A) : list A :=
  np_triu_from 1 M.

(** Lines 143-147: the three numbers of the HAMILTONIAN ANALYSIS block,
    before formatting.  [np.linalg.cond] is LAPACK code and is taken as a
    parameter. *)
Definition hamiltonian_analysis (cond : np.matrix C -> R)
           (self : BICSimulator) : R * R * R :=
  let H := _build_hamiltonian self (omega_0 self) in
  (cond H, np_std (np_diag H), np_mean (map Cabs (np_triu_k1 H))).

(** ** Geometry of an exported library *)

Definition find_cell (lib : gdspy.GdsLibrary) (nm : string)
  : option gdspy.Cell :=
  find (fun cell => String.eqb (gdspy.name cell) nm) lib.

(** The disks a cell places through its array references: centre and
    radius of every instance of every [Round] of the referenced cell. *)
Definition placed_disks (lib : gdspy.GdsLibrary) (cell : gdspy.Cell)
  : list (gdspy.point * R) :=
  flat_map
    (fun e =>
       match e with
       | gdspy.cell_array_ r =>
           match find_cell lib (gdspy.ref_cell r) with
           | Some ref =>
               flat_map
                 (fun e' =>
                    match e' with
                    | gdspy.round_ d =>
                        map (fun o =>
                               ((fst o + fst (gdspy.center d),
                                 snd o + snd (gdspy.center d)),
                                gdspy.disk_radius d))
                            (gdspy.instances r)
                    | _ => []
                    end)
                 (gdspy.elements ref)
           | None => []
           end
       | _ => []
       end)
    (gdspy.elements cell).

(** A rectangle and the bounding box of a disk do not meet when they are
    separated along x or along y. *)
Definition mark_clear_of_disk (m : gdspy.Rectangle) (d : gdspy.point * R)
  : Prop :=
  let cx := fst (fst d) in
  let cy := snd (fst d) in
  let rad := snd d in
  fst (gdspy.point2 m) < cx - rad \/ cx + rad < fst (gdspy.point1 m) \/
  snd (gdspy.point2 m) < cy - rad \/ cy + rad < snd (gdspy.point1 m).

(** A stand-in for the eigen-solver that reports the one eigenvalue [l] for
    every matrix, for concrete instances of the scan. *)
Definition constant_solver (l : C) (M : np.matrix C) : list C := [l].


(** ** Lines 31-34 in double precision *)






(** ** What [write_gds] stores *)

(** [gdspy.GdsLibrary()] is created with its defaults, a user unit of
    1e-6 m and a precision of 1e-9 m; [write_gds] stores every coordinate
    as the integer nearest to the coordinate times [unit / precision]. *)
Definition gds_unit : R := 1e-6.

Definition gds_precision : R := 1e-9.

Definition database_units (x : R) : R := x * (gds_unit / gds_precision).

(** [n] is an integer nearest to the database value of [x]. *)
Definition stored_as (x : R) (n : Z) : Prop :=
  Rabs (database_units x - IZR n) <= 1 / 2.

(** The vertices of the polygon [gdspy.Round] builds for a full disk:
    [number_of_points] points on the circle. *)
Definition round_vertices (d : gdspy.Round) : list gdspy.point :=
  let n := Z.to_nat (gdspy.number_of_points d) in
  map (fun k =>
         (fst (gdspy.center d)
          + gdspy.disk_radius d * cos (2 * PI * INR k / INR n),
          snd (gdspy.center d)
          + gdspy.disk_radius d * sin (2 * PI * INR k / INR n)))
      (seq 0 n).

(** The coordinates [write_gds] converts for one element: the vertices of
    a polygon, the two corners of a rectangle, and for an array reference
    its origin and the far ends of its column and row directions. *)
Definition element_coordinates (e : gdspy.element) : list R :=
  match e with
  | gdspy.round_ d => flat_map (fun pt => [fst pt; snd pt]) (round_vertices d)
  | gdspy.rectangle_ m =>
      [fst (gdspy.point1 m); snd (gdspy.point1 m);
       fst (gdspy.point2 m); snd (gdspy.point2 m)]
  | gdspy.cell_array_ r =>
      [fst (gdspy.origin r); snd (gdspy.origin r);
       fst (gdspy.origin r) + INR (gdspy.columns r) * fst (gdspy.spacing r);
       snd (gdspy.origin r) + INR (gdspy.rows r) * snd (gdspy.spacing r)]
  end.

Definition library_coordinates (lib : gdspy.GdsLibrary) : list R :=
  flat_map (fun cell => flat_map element_coordinates (gdspy.elements cell))
           lib.

(** The centre of a rectangle. *)
Definition centre (m : gdspy.Rectangle) : gdspy.point :=
  ((fst (gdspy.point1 m) + fst (gdspy.point2 m)) / 2,
   (snd (gdspy.point1 m) + snd (gdspy.point2 m)) / 2).

(** ** Further quantities the statements are written with *)

(** Lengths of a photonic structure: pitch, radius and design wavelength
    all lie between a nanometre and a millimetre (in metres).  In this
    range no cube, quotient or phase of lines 31-36 underflows or overflows
    in double precision. *)
Definition physical_lengths (self : BICSimulator) : Prop :=
  1e-9 <= a (params self) <= 1e-3 /\
  1e-9 <= radius (params self) <= 1e-3 /\
  1e-9 <= lambda_0 (params self) <= 1e-3.

(** [v] is an eigenvector of [M] for the eigenvalue [l]: a non-zero vector
    of the dimension of [M] with [M v = l v]. *)
Definition is_eigenvector (M : np.matrix C) (l : C) (v : list C) : Prop :=
  length v = length M /\
  (exists x, In x v /\ x <> C0) /\
  mat_vec M v = map (Cmul l) v.

(** * Properties *)

(** ** Complex arithmetic *)

Lemma C_eq (z w : C) : Re z = Re w -> Im z = Im w -> z = w.
Proof.
  destruct z as [x y], w as [x' y']; simpl; intros -> ->; reflexivity.
Qed.

Lemma Cadd_C0_l (z : C) : Cadd C0 z = z.
Proof. apply C_eq; simpl; ring. Qed.

Lemma Cmul_RtoC_l (x : R) (z : C) : Cmul (RtoC x) z = mkC (x * Re z) (x * Im z).
Proof. apply C_eq; simpl; ring. Qed.

(** The argument of the exponential of line 35 is the purely imaginary
    number [-i * (2 * pi * r / lambda_0)]. *)
Lemma phase_argument (r l0 : R) :
  l0 <> 0 ->
  Cdiv (Cmul (Cmul (Cmul (Copp Ci) (RtoC 2)) (RtoC PI)) (RtoC r)) (RtoC l0)
  = Cmul (Copp Ci) (RtoC (2 * PI * r / l0)).
Proof.
  intros Hl. apply C_eq; simpl; field; assumption.
Qed.

Lemma Cexp_imaginary (t : R) :
  Cexp (Cmul (Copp Ci) (RtoC t)) = mkC (cos t) (- sin t).
Proof.
  unfold Cexp; simpl.
  replace (- 0 * t - - (1) * 0) with 0 by ring.
  replace (- 0 * 0 + - (1) * t) with (- t) by ring.
  rewrite exp_0, cos_neg, sin_neg. apply C_eq; simpl; ring.
Qed.

(** ** Array operations *)

Lemma nth_error_set_item {A : Type} (v : A) (l : list A) :
  forall k j,
    nth_error (np.set_item k v l) j =
    if Nat.eqb j k then option_map (fun _ => v) (nth_error l j)
    else nth_error l j.
Proof.
  induction l as [|h t IH]; intros [|k] [|j]; simpl; try reflexivity.
  - destruct (Nat.eqb j k); reflexivity.
  - apply IH.
Qed.

Lemma nth_error_fill_diagonal_from {A : Type} (v : A) (M : np.matrix A) :
  forall k i,
    nth_error (np.fill_diagonal_from k M v) i =
    option_map (np.set_item (k + i) v) (nth_error M i).
Proof.
  induction M as [|row rest IH]; intros k [|i]; simpl; try reflexivity.
  - rewrite Nat.add_0_r. reflexivity.
  - rewrite IH. replace (S k + i)%nat with (k + S i)%nat by lia. reflexivity.
Qed.

Lemma entry_fill_diagonal {A : Type} (M : np.matrix A) (v : A) (i j : nat) :
  np.entry (np.fill_diagonal M v) i j =
  if Nat.eqb j i then option_map (fun _ => v) (np.entry M i j)
  else np.entry M i j.
Proof.
  unfold np.entry, np.fill_diagonal.
  rewrite nth_error_fill_diagonal_from.
  destruct (nth_error M i) as [row|]; simpl.
  - apply nth_error_set_item.
  - destruct (Nat.eqb j i); reflexivity.
Qed.

Lemma nth_error_map2 {A B D : Type} (op : A -> B -> D) (x : list A) :
  forall (y : list B) (n : nat),
    nth_error (np.map2 op x y) n =
    match nth_error x n, nth_error y n with
    | Some u, Some w => Some (op u w)
    | _, _ => None
    end.
Proof.
  induction x as [|u x IH]; intros [|w y] [|n]; simpl; try reflexivity.
  - destruct (nth_error x n); reflexivity.
  - apply IH.
Qed.

Lemma entry_mmap2 {A B D : Type} (op : A -> B -> D)
      (M : np.matrix A) (K : np.matrix B) (i j : nat) :
  np.entry (np.mmap2 op M K) i j =
  match np.entry M i j, np.entry K i j with
  | Some u, Some w => Some (op u w)
  | _, _ => None
  end.
Proof.
  unfold np.entry, np.mmap2. rewrite nth_error_map2.
  destruct (nth_error M i) as [r1|], (nth_error K i) as [r2|]; simpl;
    try reflexivity.
  - apply nth_error_map2.
  - destruct (nth_error r1 j); reflexivity.
Qed.

Lemma entry_mmap {A B : Type} (f : A -> B) (M : np.matrix A) (i j : nat) :
  np.entry (np.mmap f M) i j = option_map f (np.entry M i j).
Proof.
  unfold np.entry, np.mmap. rewrite nth_error_map.
  destruct (nth_error M i) as [row|]; simpl; [apply nth_error_map | reflexivity].
Qed.

Lemma entry_outer {A B D : Type} (op : A -> B -> D)
      (x : list A) (y : list B) (i j : nat) :
  np.entry (np.outer op x y) i j =
  match nth_error x i, nth_error y j with
  | Some u, Some w => Some (op u w)
  | _, _ => None
  end.
Proof.
  unfold np.entry, np.outer. rewrite nth_error_map.
  destruct (nth_error x i) as [u|]; simpl; [| reflexivity].
  rewrite nth_error_map. destruct (nth_error y j); reflexivity.
Qed.

Lemma nth_error_repeat_full {A : Type} (x : A) (n i : nat) :
  nth_error (repeat x n) i = if Nat.ltb i n then Some x else None.
Proof.
  destruct (Nat.ltb_spec i n) as [Hlt|Hge].
  - apply nth_error_repeat; assumption.
  - apply nth_error_None. rewrite repeat_length. assumption.
Qed.

Lemma entry_zeros {A : Type} (z : A) (n m i j : nat) :
  np.entry (np.zeros z n m) i j =
  if Nat.ltb i n && Nat.ltb j m then Some z else None.
Proof.
  unfold np.entry, np.zeros. rewrite nth_error_repeat_full.
  destruct (Nat.ltb i n); simpl; [apply nth_error_repeat_full | reflexivity].
Qed.

Lemma nth_error_arange (n i : nat) :
  nth_error (np.arange n) i =
  if Nat.ltb i n then Some (Z.of_nat i) else None.
Proof.
  unfold np.arange. rewrite nth_error_map, nth_error_seq.
  destruct (Nat.ltb i n); reflexivity.
Qed.

Lemma arange_length (n : nat) : length (np.arange n) = n.
Proof. unfold np.arange. rewrite length_map, length_seq. reflexivity. Qed.

(** ** The Hamiltonian, entry by entry *)

Lemma r_ij_sym (self : BICSimulator) (i j : nat) :
  r_ij self i j = r_ij self j i.
Proof.
  unfold r_ij. rewrite (Nat.eqb_sym j i).
  destruct (Nat.eqb i j); [reflexivity |].
  replace (Z.of_nat j - Z.of_nat i)%Z with (- (Z.of_nat i - Z.of_nat j))%Z
    by ring.
  rewrite Z.abs_opp. reflexivity.
Qed.

Lemma entry_separation (self : BICSimulator) (i j : nat) :
  np.entry (separation self) i j =
  if Nat.ltb i (N (params self)) && Nat.ltb j (N (params self))
  then Some (r_ij self i j) else None.
Proof.
  unfold separation, r_ij.
  rewrite entry_fill_diagonal, !entry_mmap, entry_outer, !nth_error_arange.
  rewrite (Nat.eqb_sym j i).
  destruct (Nat.ltb i (N (params self))), (Nat.ltb j (N (params self)));
    destruct (Nat.eqb i j); reflexivity.
Qed.

Lemma entry_build_hamiltonian (self : BICSimulator) (omega : R) (i j : nat) :
  np.entry (_build_hamiltonian self omega) i j =
  if Nat.ltb i (N (params self)) && Nat.ltb j (N (params self))
  then Some (H_entry self omega i j) else None.
Proof.
  unfold _build_hamiltonian, H_entry.
  rewrite !entry_mmap2, entry_fill_diagonal, !entry_mmap, entry_zeros,
    entry_separation.
  rewrite (Nat.eqb_sym j i).
  destruct (Nat.ltb i (N (params self)) && Nat.ltb j (N (params self)));
    destruct (Nat.eqb i j); reflexivity.
Qed.

Lemma H_entry_coupling_term (self : BICSimulator) (r : R) :
  lambda_0 (params self) <> 0 ->
  Cmul (RtoC (0.62 * coupling_of self r)) (phase_of self r)
  = coupling_term self r.
Proof.
  intros Hl. unfold coupling_term, phase_of, coupling_of.
  rewrite phase_argument by assumption. reflexivity.
Qed.

Lemma H_entry_sym (self : BICSimulator) (omega : R) (i j : nat) :
  H_entry self omega i j = H_entry self omega j i.
Proof.
  unfold H_entry. rewrite (r_ij_sym self j i), (Nat.eqb_sym j i). reflexivity.
Qed.

Lemma IZR_abs_diff (i j : nat) :
  IZR (Z.abs (Z.of_nat i - Z.of_nat j)) = Rabs (INR i - INR j).
Proof. rewrite abs_IZR, minus_IZR, <- !INR_IZR_INZ. reflexivity. Qed.


Lemma cube_nonneg (x : R) : 0 <= x -> 0 <= x ^ 3.
Proof. intros Hx. apply pow_le. assumption. Qed.

Lemma cube_pos (x : R) : 0 < x -> 0 < x ^ 3.
Proof. intros Hx. apply pow_lt. assumption. Qed.

Lemma denominator_pos (self : BICSimulator) (r : R) :
  0 < a (params self) -> 0 <= r ->
  0 < r ^ 3 + (0.114 * a (params self)) ^ 3.
Proof.
  intros Ha Hr.
  pose proof (cube_nonneg r Hr).
  assert (0 < (0.114 * a (params self)) ^ 3) by (apply cube_pos; lra).
  lra.
Qed.

(** ** Eigenvalues of a 1x1 matrix *)

Lemma Cmul_cancel_r (h l x : C) :
  x <> C0 -> Cadd (Cmul h x) C0 = Cmul l x -> h = l.
Proof.
  destruct h as [h1 h2], l as [l1 l2], x as [x1 x2].
  unfold Cadd, Cmul, C0, RtoC; simpl. intros Hx Heq.
  injection Heq as E1 E2.
  assert (Hn : 0 < x1 * x1 + x2 * x2).
  { destruct (Req_dec x1 0) as [-> | H1].
    - destruct (Req_dec x2 0) as [-> | H2]; [exfalso; apply Hx; reflexivity |].
      nra.
    - nra. }
  assert (Hu : (h1 - l1) * (x1 * x1 + x2 * x2) = 0).
  { replace ((h1 - l1) * (x1 * x1 + x2 * x2))
      with (x1 * ((h1 * x1 - h2 * x2 + 0) - (l1 * x1 - l2 * x2))
            + x2 * ((h1 * x2 + h2 * x1 + 0) - (l1 * x2 + l2 * x1))) by ring.
    rewrite E1, E2. ring. }
  assert (Hw : (h2 - l2) * (x1 * x1 + x2 * x2) = 0).
  { replace ((h2 - l2) * (x1 * x1 + x2 * x2))
      with (x1 * ((h1 * x2 + h2 * x1 + 0) - (l1 * x2 + l2 * x1))
            - x2 * ((h1 * x1 - h2 * x2 + 0) - (l1 * x1 - l2 * x2))) by ring.
    rewrite E1, E2. ring. }
  apply Rmult_integral in Hu, Hw.
  f_equal; lra.
Qed.

Lemma eigenvalue_1x1 (h l : C) : is_eigenvalue [[h]] l <-> l = h.
Proof.
  split.
  - intros (v & Hlen & (x & Hin & Hx) & Hv).
    destruct v as [|y [|? ?]]; simpl in Hlen; try discriminate.
    destruct Hin as [<- | []].
    unfold mat_vec, dot, Csum in Hv.
    cbn [map np.map2 fold_right] in Hv.
    assert (E : Cadd (Cmul h y) C0 = Cmul l y) by congruence.
    symmetry. eapply Cmul_cancel_r; eassumption.
  - intros ->. exists [RtoC 1]. split; [reflexivity | split].
    + exists (RtoC 1). split; [left; reflexivity |].
      unfold RtoC, C0. intros E. injection E as E. lra.
    + unfold mat_vec, dot, Csum; simpl. f_equal.
      apply C_eq; simpl; ring.
Qed.

Lemma build_hamiltonian_1x1 (self : BICSimulator) (omega : R) :
  N (params self) = 1%nat ->
  _build_hamiltonian self omega = [[H_entry self omega 0 0]].
Proof.
  intros HN. unfold _build_hamiltonian, separation, H_entry, r_ij.
  rewrite HN. reflexivity.
Qed.

(** ** The self-coupling term on the diagonal *)

Lemma H_entry_diagonal (self : BICSimulator) (omega : R) (i : nat) :
  lambda_0 (params self) <> 0 ->
  H_entry self omega i i =
  Cadd (diag self omega) (coupling_term self (0.114 * a (params self))).
Proof.
  intros Hl. unfold H_entry, r_ij. rewrite Nat.eqb_refl.
  rewrite H_entry_coupling_term by assumption.
  rewrite (Rmult_comm (a (params self)) 0.114). reflexivity.
Qed.

Lemma Re_coupling_term (self : BICSimulator) (r : R) :
  Re (coupling_term self r) =
  0.62 * (radius (params self) ^ 3 / (r ^ 3 + (0.114 * a (params self)) ^ 3))
  * cos (2 * PI * r / lambda_0 (params self)).
Proof.
  unfold coupling_term. rewrite Cexp_imaginary, Cmul_RtoC_l. reflexivity.
Qed.

Lemma Im_coupling_term (self : BICSimulator) (r : R) :
  Im (coupling_term self r) =
  - (0.62 * (radius (params self) ^ 3 / (r ^ 3 + (0.114 * a (params self)) ^ 3))
     * sin (2 * PI * r / lambda_0 (params self))).
Proof.
  unfold coupling_term. rewrite Cexp_imaginary, Cmul_RtoC_l. simpl. ring.
Qed.

(** The self-coupling term has a positive real part as soon as the
    self-distance is shorter than a quarter of the design wavelength. *)
Lemma self_coupling_re_pos (self : BICSimulator) :
  0 < a (params self) -> 0 < radius (params self) ->
  4 * (0.114 * a (params self)) < lambda_0 (params self) ->
  0 < Re (coupling_term self (0.114 * a (params self))).
Proof.
  intros Ha Hr Hq. rewrite Re_coupling_term.
  set (r := 0.114 * a (params self)) in *.
  set (l0 := lambda_0 (params self)) in *.
  assert (Hr0 : 0 < r) by (unfold r; lra).
  assert (Hl0 : 0 < l0) by lra.
  assert (Hden : 0 < r ^ 3 + r ^ 3).
  { pose proof (cube_pos r Hr0). lra. }
  assert (Hnum : 0 < radius (params self) ^ 3) by (apply cube_pos; assumption).
  assert (Hk : 0 < radius (params self) ^ 3 / (r ^ 3 + r ^ 3)).
  { apply Rdiv_lt_0_compat; assumption. }
  assert (Hcos : 0 < cos (2 * PI * r / l0)).
  { pose proof PI_RGT_0 as Hpi.
    assert (Hfrac : 0 < r / l0 < / 4).
    { split.
      - apply Rdiv_lt_0_compat; assumption.
      - apply (Rmult_lt_reg_r l0); [assumption |].
        unfold Rdiv. rewrite Rmult_assoc, Rinv_l by lra. lra. }
    replace (2 * PI * r / l0) with (2 * PI * (r / l0)) by (field; lra).
    apply cos_gt_0; nra. }
  nra.
Qed.

Lemma Cadd_neq_self (d t : C) : 0 < Re t -> Cadd d t <> d.
Proof.
  intros Ht E. apply (f_equal Re) in E. simpl in E. lra.
Qed.

(** ** Claims about [_build_hamiltonian] *)

(** C1, amended.  The coupling of line 36 is added to every element of the
    matrix, the diagonal included, where the separation is the self-distance
    [0.114 * a].  Every diagonal entry therefore equals
    [(omega/omega_0)^2 * epsilon + 0.66
     + 0.62 * radius^3 / ((0.114 a)^3 + (0.114 a)^3)
            * exp(-i * 2 pi * 0.114 a / lambda_0)],
    and for [N = 1] the Hamiltonian is the 1x1 matrix holding that value,
    which is its single eigenvalue. *)
Theorem diagonal_entry_with_self_coupling
        (self : BICSimulator) (omega : R) :
  lambda_0 (params self) <> 0 ->
  let d :=
    Cadd (Cadd (Cmul (RtoC ((omega / omega_0 self) ^ 2))
                     (epsilon (params self)))
               (RtoC 0.66))
         (coupling_term self (0.114 * a (params self))) in
  (forall i : nat,
      (i < N (params self))%nat ->
      np.entry (_build_hamiltonian self omega) i i = Some d) /\
  (N (params self) = 1%nat ->
   _build_hamiltonian self omega = [[d]] /\
   forall l : C, is_eigenvalue (_build_hamiltonian self omega) l <-> l = d).
Proof.
  intros Hl d. split.
  - intros i Hi. rewrite entry_build_hamiltonian.
    apply Nat.ltb_lt in Hi. rewrite Hi. simpl.
    rewrite H_entry_diagonal by assumption. reflexivity.
  - intros HN. rewrite build_hamiltonian_1x1 by assumption.
    rewrite H_entry_diagonal by assumption. fold (diag self omega).
    split; [reflexivity |]. intros l. apply eigenvalue_1x1.
Qed.

Lemma diagonal_entry_with_self_coupling_witness :
  lambda_0 (params (with_N __init__ 1)) <> 0 /\
  _build_hamiltonian (with_N __init__ 1) (omega_0 __init__) =
  [[Cadd (Cadd (Cmul (RtoC ((omega_0 __init__ / omega_0 __init__) ^ 2))
                     (mkC 12.1 6.0e-7))
               (RtoC 0.66))
         (coupling_term (with_N __init__ 1) (0.114 * 600e-9))]].
Proof.
  assert (Hl : lambda_0 (params (with_N __init__ 1)) <> 0) by (simpl; lra).
  split; [exact Hl |].
  exact (proj1 (proj2 (diagonal_entry_with_self_coupling
                         (with_N __init__ 1) (omega_0 __init__) Hl)
                      eq_refl)).
Defined.

Lemma init_self_coupling_re_pos (n : nat) :
  0 < Re (coupling_term (with_N __init__ n)
                        (0.114 * a (params (with_N __init__ n)))).
Proof. apply self_coupling_re_pos; simpl; lra. Qed.

(** C1 as stated fails: with the certified parameters the entry [H[0, 0]]
    at [omega_0] is not [(omega/omega_0)^2 * epsilon + 0.66], and with
    [N = 1] that value is not an eigenvalue of the 1x1 Hamiltonian. *)
Lemma diagonal_formula_alone_fails :
  np.entry (_build_hamiltonian __init__ (omega_0 __init__)) 0 0
  <> Some (diag __init__ (omega_0 __init__)) /\
  ~ is_eigenvalue (_build_hamiltonian (with_N __init__ 1) (omega_0 __init__))
                  (diag (with_N __init__ 1) (omega_0 __init__)).
Proof.
  split.
  - rewrite entry_build_hamiltonian.
    change (Nat.ltb 0 (N (params __init__)) && Nat.ltb 0 (N (params __init__)))
      with true.
    cbv iota. rewrite H_entry_diagonal by (simpl; lra).
    intros E.
    assert (E' : Cadd (diag __init__ (omega_0 __init__))
                      (coupling_term __init__ (0.114 * a (params __init__)))
                 = diag __init__ (omega_0 __init__)) by congruence.
    revert E'. apply Cadd_neq_self.
    apply (init_self_coupling_re_pos 20).
  - rewrite build_hamiltonian_1x1 by reflexivity.
    rewrite eigenvalue_1x1, H_entry_diagonal by (simpl; lra).
    intros E. symmetry in E. revert E. apply Cadd_neq_self.
    apply init_self_coupling_re_pos.
Qed.

(** C6.  For distinct cells [i] and [j] of the array the entry [H[i, j]]
    is [0.62 * radius^3 / (r^3 + (0.114 a)^3) * exp(-i * 2 pi * r / lambda_0)]
    with [r = a * |i - j|], whatever the frequency. *)
Theorem offdiagonal_entry (self : BICSimulator) (omega : R) (i j : nat) :
  lambda_0 (params self) <> 0 ->
  (i < N (params self))%nat -> (j < N (params self))%nat -> i <> j ->
  np.entry (_build_hamiltonian self omega) i j =
  Some (Cmul (RtoC (0.62 * (radius (params self) ^ 3
                            / ((a (params self) * Rabs (INR i - INR j)) ^ 3
                               + (0.114 * a (params self)) ^ 3))))
             (Cexp (Cmul (Copp Ci)
                         (RtoC (2 * PI
                                * (a (params self) * Rabs (INR i - INR j))
                                / lambda_0 (params self)))))).
Proof.
  intros Hl Hi Hj Hij. rewrite entry_build_hamiltonian.
  apply Nat.ltb_lt in Hi, Hj. rewrite Hi, Hj. simpl.
  unfold H_entry. rewrite H_entry_coupling_term by assumption.
  unfold r_ij. apply Nat.eqb_neq in Hij. rewrite Hij.
  rewrite Cadd_C0_l, IZR_abs_diff. reflexivity.
Qed.

Lemma offdiagonal_entry_witness :
  lambda_0 (params __init__) <> 0 /\
  np.entry (_build_hamiltonian __init__ (omega_0 __init__)) 0 3 =
  Some (Cmul (RtoC (0.62 * (202e-9 ^ 3
                            / ((600e-9 * Rabs (INR 0 - INR 3)) ^ 3
                               + (0.114 * 600e-9) ^ 3))))
             (Cexp (Cmul (Copp Ci)
                         (RtoC (2 * PI * (600e-9 * Rabs (INR 0 - INR 3))
                                / 1550e-9))))).
Proof.
  assert (Hl : lambda_0 (params __init__) <> 0) by (simpl; lra).
  split; [exact Hl |].
  apply (offdiagonal_entry __init__ (omega_0 __init__) 0 3 Hl).
  - simpl; lia.
  - simpl; lia.
  - discriminate.
Defined.







(** C10.  The Hamiltonian is complex-symmetric: [H[i, j]] and [H[j, i]]
    are the same complex number (no conjugation), for every frequency and
    every pair of indices; outside the array both lookups are out of
    bounds. *)
Theorem hamiltonian_symmetric (self : BICSimulator) (omega : R) (i j : nat) :
  np.entry (_build_hamiltonian self omega) i j =
  np.entry (_build_hamiltonian self omega) j i.
Proof.
  rewrite !entry_build_hamiltonian.
  rewrite (andb_comm (Nat.ltb j _)), (H_entry_sym self omega j i).
  reflexivity.
Qed.

(** ** The scan, one sample at a time *)

Lemma Rltb_true (x y : R) : Rltb x y = true <-> x < y.
Proof.
  unfold Rltb. destruct (Rlt_dec x y) as [H|H]; split; intros H'.
  - exact H.
  - reflexivity.
  - discriminate.
  - contradiction.
Qed.

Lemma Rltb_false (x y : R) : Rltb x y = false <-> y <= x.
Proof.
  unfold Rltb. destruct (Rlt_dec x y) as [H|H]; split; intros H'.
  - discriminate.
  - lra.
  - lra.
  - reflexivity.
Qed.

Lemma map2_map_map {A B D E : Type} (op : B -> D -> E)
      (f : A -> B) (g : A -> D) (l : list A) :
  np.map2 op (map f l) (map g l) = map (fun x => op (f x) (g x)) l.
Proof.
  induction l as [|x l IH]; simpl; [reflexivity | rewrite IH; reflexivity].
Qed.

Lemma mask_map_map {A B : Type} (f : A -> B) (b : A -> bool) (l : list A) :
  np.mask (map f l) (map b l) = map f (filter b l).
Proof.
  induction l as [|x l IH]; simpl; [reflexivity |].
  destruct (b x); simpl; rewrite IH; reflexivity.
Qed.

Lemma combine_map_map {A B D : Type} (f : A -> B) (g : A -> D) (l : list A) :
  combine (map f l) (map g l) = map (fun x => (f x, g x)) l.
Proof.
  induction l as [|x l IH]; simpl; [reflexivity | rewrite IH; reflexivity].
Qed.

Lemma sweep_step_filter (eigvals : np.matrix C -> list C)
      (self : BICSimulator) (omega : R) :
  sweep_step eigvals self omega =
  map (record_of self)
      (filter (acceptedb self) (eigvals (_build_hamiltonian self omega))).
Proof.
  unfold sweep_step.
  generalize (eigvals (_build_hamiltonian self omega)) as evals. intros evals.
  cbv zeta.
  repeat (rewrite map_map || rewrite map2_map_map).
  rewrite !mask_map_map, combine_map_map.
  reflexivity.
Qed.

Lemma acceptedb_true (self : BICSimulator) (l : C) :
  acceptedb self l = true <-> accepted self l.
Proof.
  unfold acceptedb, accepted, Rgtb.
  rewrite !andb_true_iff, !Rltb_true. unfold Rgt. tauto.
Qed.

Lemma acceptedb_no_decay (self : BICSimulator) (l : C) :
  Gamma_n_of self l <= 0 -> acceptedb self l = false.
Proof.
  intros Hg. unfold acceptedb, Rgtb.
  replace (Rltb 1e-5 (Gamma_n_of self l)) with false; [reflexivity |].
  symmetry. apply Rltb_false. lra.
Qed.

(** ** The whole sweep *)

Lemma fold_left_extend {A B : Type} (f : A -> list B) (l : list A) :
  forall acc : list B,
    fold_left (fun results x => results ++ f x) l acc = acc ++ flat_map f l.
Proof.
  induction l as [|x l IH]; intros acc; simpl.
  - rewrite app_nil_r. reflexivity.
  - rewrite IH, app_assoc. reflexivity.
Qed.

Lemma sweep_accepted_records (eigvals : np.matrix C -> list C)
      (self : BICSimulator) (omegas : list R) :
  sweep eigvals self omegas = accepted_records eigvals self omegas.
Proof.
  unfold sweep, accepted_records. rewrite fold_left_extend. simpl.
  apply flat_map_ext. intros omega. apply sweep_step_filter.
Qed.

Lemma flat_map_nil {A B : Type} (f : A -> list B) (l : list A) :
  flat_map f l = [] <-> forall x, In x l -> f x = [].
Proof.
  induction l as [|x l IH]; simpl.
  - split; [intros _ y [] | reflexivity].
  - split.
    + intros H. apply app_eq_nil in H. destruct H as [Hx Hl].
      intros y [<- | Hy]; [exact Hx | apply IH; assumption].
    + intros H. rewrite (H x) by (left; reflexivity). simpl.
      apply IH. intros y Hy. apply H. right. exact Hy.
Qed.

Lemma map_filter_nil {A B : Type} (f : A -> B) (b : A -> bool) (l : list A) :
  map f (filter b l) = [] <-> forall x, In x l -> b x = false.
Proof.
  induction l as [|x l IH]; simpl.
  - split; [intros _ y [] | reflexivity].
  - destruct (b x) eqn:Hb; simpl.
    + split; [discriminate |].
      intros H. specialize (H x (or_introl eq_refl)). congruence.
    + rewrite IH. split.
      * intros H y [<- | Hy]; [exact Hb | apply H; exact Hy].
      * intros H y Hy. apply H. right. exact Hy.
Qed.

Lemma accepted_records_nil (eigvals : np.matrix C -> list C)
      (self : BICSimulator) (omegas : list R) :
  accepted_records eigvals self omegas = [] <->
  (forall omega, In omega omegas ->
   forall l, In l (eigvals (_build_hamiltonian self omega)) ->
             acceptedb self l = false).
Proof.
  unfold accepted_records. rewrite flat_map_nil.
  split; intros H omega Hin.
  - apply map_filter_nil with (f := record_of self). apply H. exact Hin.
  - apply map_filter_nil. apply H. exact Hin.
Qed.

Lemma run_simulation_cases (eigvals : np.matrix C -> list C)
      (self : BICSimulator) :
  run_simulation eigvals self =
  match accepted_records eigvals self (omega_range self) with
  | [] => None
  | rec :: rest => Some (rec :: rest)
  end.
Proof.
  unfold run_simulation. rewrite sweep_accepted_records.
  destruct (accepted_records eigvals self (omega_range self)); reflexivity.
Qed.

(** ** The frequency axis *)

Lemma linspace_length (start stop : R) (num : nat) :
  length (np.linspace start stop num) = num.
Proof. unfold np.linspace. rewrite length_map. apply arange_length. Qed.

Lemma nth_error_linspace (start stop : R) (num k : nat) :
  nth_error (np.linspace start stop num) k =
  if Nat.ltb k num
  then Some (IZR (Z.of_nat k) * ((stop - start) / IZR (Z.of_nat num - 1))
             + start)
  else None.
Proof.
  unfold np.linspace. rewrite nth_error_map, nth_error_arange.
  destruct (Nat.ltb k num); reflexivity.
Qed.

Lemma In_linspace (start stop : R) (num : nat) (x : R) :
  In x (np.linspace start stop num) ->
  exists k : nat,
    (k < num)%nat /\
    x = IZR (Z.of_nat k) * ((stop - start) / IZR (Z.of_nat num - 1)) + start.
Proof.
  intros Hin. apply In_nth_error in Hin. destruct Hin as [k Hk].
  rewrite nth_error_linspace in Hk.
  destruct (Nat.ltb_spec k num) as [Hlt|Hge]; [| discriminate].
  exists k. split; [exact Hlt | congruence].
Qed.

Lemma linspace_bounds (start stop : R) (num : nat) (x : R) :
  start <= stop -> (2 <= num)%nat ->
  In x (np.linspace start stop num) -> start <= x <= stop.
Proof.
  intros Hle Hnum Hin.
  destruct (In_linspace _ _ _ _ Hin) as (k & Hk & ->).
  set (n1 := IZR (Z.of_nat num - 1)).
  assert (Hn1 : 0 < n1) by (apply IZR_lt; lia).
  assert (Hk0 : 0 <= IZR (Z.of_nat k)) by (apply IZR_le; lia).
  assert (Hk1 : IZR (Z.of_nat k) <= n1) by (apply IZR_le; lia).
  assert (Hstep : 0 <= (stop - start) / n1).
  { apply Rmult_le_pos; [lra | left; apply Rinv_0_lt_compat; exact Hn1]. }
  assert (Hfull : n1 * ((stop - start) / n1) = stop - start)
    by (field; lra).
  split; nra.
Qed.

Lemma linspace_increasing (start stop : R) (num i j : nat) (x y : R) :
  start < stop -> (i < j)%nat ->
  nth_error (np.linspace start stop num) i = Some x ->
  nth_error (np.linspace start stop num) j = Some y ->
  x < y.
Proof.
  intros Hlt Hij. rewrite !nth_error_linspace.
  destruct (Nat.ltb_spec i num) as [Hi|]; [| discriminate].
  destruct (Nat.ltb_spec j num) as [Hj|]; [| discriminate].
  intros Hx Hy. injection Hx as <-. injection Hy as <-.
  set (n1 := IZR (Z.of_nat num - 1)).
  assert (Hn1 : 0 < n1) by (apply IZR_lt; lia).
  assert (Hstep : 0 < (stop - start) / n1).
  { apply Rdiv_lt_0_compat; lra. }
  assert (Hk : IZR (Z.of_nat i) < IZR (Z.of_nat j)) by (apply IZR_lt; lia).
  nra.
Qed.

Lemma omega_range_nth (self : BICSimulator) (k : nat) :
  (k < Z.to_nat 50000)%nat ->
  nth_error (omega_range self) k =
  Some (0.92 * omega_0 self
        + INR k * ((1.08 * omega_0 self - 0.92 * omega_0 self) / 49999)).
Proof.
  intros Hk. unfold omega_range. rewrite nth_error_linspace.
  apply Nat.ltb_lt in Hk. rewrite Hk.
  replace (Z.of_nat (Z.to_nat 50000) - 1)%Z with 49999%Z by lia.
  rewrite INR_IZR_INZ. f_equal. ring.
Qed.

Lemma omega_range_bounds (self : BICSimulator) (omega : R) :
  0 < omega_0 self -> In omega (omega_range self) ->
  0.92 * omega_0 self <= omega <= 1.08 * omega_0 self.
Proof.
  intros H0. apply linspace_bounds; [lra | lia].
Qed.

(** ** A single-cell structure has no accepted resonance *)

Lemma omega_0_init_pos : 0 < omega_0 __init__.
Proof.
  pose proof PI_RGT_0 as Hpi.
  change (0 < 2 * PI * c / 1550e-9). unfold c.
  apply Rdiv_lt_0_compat; lra.
Qed.

(** [__init__] derives a positive reference frequency from any positive
    design wavelength. *)
Lemma new_simulator_omega_0_pos (p : params_t) :
  0 < lambda_0 p -> 0 < omega_0 (new_simulator p).
Proof.
  intros Hl. pose proof PI_RGT_0 as Hpi. simpl. unfold c.
  apply Rdiv_lt_0_compat; lra.
Qed.

Lemma THz_factor_init :
  omega_0 __init__ / (2 * PI * 1e12) = 299792458 / 1550000.
Proof.
  pose proof PI_RGT_0 as Hpi.
  change (2 * PI * c / 1550e-9 / (2 * PI * 1e12) = 299792458 / 1550000).
  unfold c. field. lra.
Qed.

Lemma Re_diag (self : BICSimulator) (omega : R) :
  Re (diag self omega) =
  (omega / omega_0 self) ^ 2 * Re (epsilon (params self)) + 0.66.
Proof. unfold diag. simpl. ring. Qed.

Lemma single_cell_rejected (omega : R) :
  In omega (omega_range single_cell) ->
  acceptedb single_cell (H_entry single_cell omega 0 0) = false.
Proof.
  intros Hin.
  pose proof omega_0_init_pos as H0.
  apply (omega_range_bounds single_cell omega H0) in Hin.
  change (omega_0 single_cell) with (omega_0 __init__) in Hin.
  assert (Hx : 0.92 <= omega / omega_0 __init__).
  { apply (Rmult_le_reg_r (omega_0 __init__)); [exact H0 |].
    unfold Rdiv. rewrite Rmult_assoc, Rinv_l by lra. lra. }
  assert (Hre : 10 <= Re (H_entry single_cell omega 0 0)).
  { rewrite H_entry_diagonal by (simpl; lra).
    pose proof (init_self_coupling_re_pos 1) as Hp.
    change (with_N __init__ 1) with single_cell in Hp.
    change (Re (Cadd (diag single_cell omega)
                     (coupling_term single_cell
                                    (0.114 * a (params single_cell)))))
      with (Re (diag single_cell omega)
            + Re (coupling_term single_cell (0.114 * a (params single_cell)))).
    rewrite Re_diag.
    change (omega_0 single_cell) with (omega_0 __init__).
    change (Re (epsilon (params single_cell))) with 12.1.
    nra. }
  assert (Hf : 194.0 <= freq_THz_of single_cell (H_entry single_cell omega 0 0)).
  { unfold freq_THz_of, omega_n_of.
    change (omega_0 single_cell) with (omega_0 __init__).
    unfold Rdiv. rewrite Rmult_assoc.
    change (omega_0 __init__ * / (2 * PI * 1e12))
      with (omega_0 __init__ / (2 * PI * 1e12)).
    rewrite THz_factor_init. lra. }
  unfold acceptedb. apply Rltb_false in Hf. rewrite Hf.
  rewrite andb_false_r. reflexivity.
Qed.

Lemma single_cell_eigvals (omega : R) :
  eigvals_1x1 (_build_hamiltonian single_cell omega) =
  [H_entry single_cell omega 0 0].
Proof. rewrite build_hamiltonian_1x1 by reflexivity. reflexivity. Qed.

Lemma single_cell_no_accepted :
  forall omega, In omega (omega_range single_cell) ->
  forall l, In l (eigvals_1x1 (_build_hamiltonian single_cell omega)) ->
            acceptedb single_cell l = false.
Proof.
  intros omega Hin l Hl. rewrite single_cell_eigvals in Hl.
  destruct Hl as [<- | []]. apply single_cell_rejected. exact Hin.
Qed.

(** ** What the scan returns *)

Lemma In_accepted_records (eigvals : np.matrix C -> list C)
      (self : BICSimulator) (omegas : list R) (rec : R * R) :
  In rec (accepted_records eigvals self omegas) <->
  exists omega l,
    In omega omegas /\
    In l (eigvals (_build_hamiltonian self omega)) /\
    accepted self l /\ rec = record_of self l.
Proof.
  unfold accepted_records. rewrite in_flat_map. split.
  - intros (omega & Hom & Hin). apply in_map_iff in Hin.
    destruct Hin as (l & Hrec & Hl). apply filter_In in Hl.
    destruct Hl as [Hl Hb]. apply acceptedb_true in Hb.
    exists omega, l. auto.
  - intros (omega & l & Hom & Hl & Hacc & ->). exists omega.
    split; [exact Hom |]. apply in_map. apply filter_In.
    split; [exact Hl | apply acceptedb_true; exact Hacc].
Qed.

Lemma run_simulation_Some (eigvals : np.matrix C -> list C)
      (self : BICSimulator) (results : list (R * R)) :
  run_simulation eigvals self = Some results ->
  results = accepted_records eigvals self (omega_range self) /\
  results <> [].
Proof.
  rewrite run_simulation_cases.
  destruct (accepted_records eigvals self (omega_range self)) as [|rec rest];
    [discriminate |].
  intros E. injection E as <-. split; [reflexivity | discriminate].
Qed.

(** ** A concrete accepted resonance *)

Lemma resonant_eigenvalue_accepted : accepted __init__ (mkC 1 (-1e-6)).
Proof.
  pose proof omega_0_init_pos as H0.
  pose proof THz_factor_init as Hf.
  pose proof PI2_3_2 as Hpi.
  assert (Hw : 1e9 < omega_0 __init__).
  { change (1e9 < 2 * PI * c / 1550e-9). unfold c, Rdiv. lra. }
  unfold accepted, Gamma_n_of, freq_THz_of, Q_of, omega_n_of, Gamma_n_of.
  cbn [Re Im]. rewrite Rmult_1_l, Hf.
  repeat split; try lra.
  replace (omega_0 __init__ / (-2 * -1e-6 * omega_0 __init__)) with 5e5
    by (field; lra).
  lra.
Qed.

Lemma omega_range_first (self : BICSimulator) :
  In (0.92 * omega_0 self) (omega_range self).
Proof.
  apply (nth_error_In _ 0). rewrite omega_range_nth by lia.
  f_equal. simpl. lra.
Qed.

Lemma resonant_run_Some :
  run_simulation (constant_solver (mkC 1 (-1e-6))) __init__ =
  Some (accepted_records (constant_solver (mkC 1 (-1e-6))) __init__
                         (omega_range __init__)) /\
  In (record_of __init__ (mkC 1 (-1e-6)))
     (accepted_records (constant_solver (mkC 1 (-1e-6))) __init__
                       (omega_range __init__)).
Proof.
  assert (Hin : In (record_of __init__ (mkC 1 (-1e-6)))
                   (accepted_records (constant_solver (mkC 1 (-1e-6)))
                                     __init__ (omega_range __init__))).
  { apply In_accepted_records.
    exists (0.92 * omega_0 __init__), (mkC 1 (-1e-6)).
    split; [apply omega_range_first |].
    split; [left; reflexivity |].
    split; [apply resonant_eigenvalue_accepted | reflexivity]. }
  split; [| exact Hin].
  rewrite run_simulation_cases.
  destruct (accepted_records (constant_solver (mkC 1 (-1e-6))) __init__
                             (omega_range __init__));
    [contradiction | reflexivity].
Qed.

(** ** Claims about [run_simulation] *)

(** C3, amended.  [run_simulation] returns the full collection of accepted
    records, in sweep order, when there is at least one; when no eigenvalue
    of any sample passes the filter it returns [None], not a collection.
    The collection it returns is never empty. *)
Theorem run_simulation_returns
        (eigvals : np.matrix C -> list C) (self : BICSimulator) :
  (accepted_records eigvals self (omega_range self) <> [] ->
   run_simulation eigvals self =
   Some (accepted_records eigvals self (omega_range self))) /\
  ((forall omega, In omega (omega_range self) ->
    forall l, In l (eigvals (_build_hamiltonian self omega)) ->
              ~ accepted self l) ->
   run_simulation eigvals self = None) /\
  run_simulation eigvals self <> Some [].
Proof.
  rewrite run_simulation_cases. repeat split.
  - intros Hne.
    destruct (accepted_records eigvals self (omega_range self));
      [contradiction | reflexivity].
  - intros Hno.
    assert (Hnil : accepted_records eigvals self (omega_range self) = []).
    { apply accepted_records_nil. intros omega Hin l Hl.
      apply not_true_is_false. rewrite acceptedb_true.
      apply (Hno omega Hin l Hl). }
    rewrite Hnil. reflexivity.
  - destruct (accepted_records eigvals self (omega_range self));
      discriminate.
Qed.

Lemma run_simulation_returns_witness :
  (forall omega, In omega (omega_range single_cell) ->
   forall l, In l (eigvals_1x1 (_build_hamiltonian single_cell omega)) ->
             ~ accepted single_cell l) /\
  run_simulation eigvals_1x1 single_cell = None.
Proof.
  assert (Hno : forall omega, In omega (omega_range single_cell) ->
                forall l,
                  In l (eigvals_1x1 (_build_hamiltonian single_cell omega)) ->
                  ~ accepted single_cell l).
  { intros omega Hin l Hl Hacc. apply acceptedb_true in Hacc.
    rewrite (single_cell_no_accepted omega Hin l Hl) in Hacc.
    discriminate. }
  split; [exact Hno |].
  exact (proj1 (proj2 (run_simulation_returns eigvals_1x1 single_cell)) Hno).
Defined.

(** C3 as stated fails: for the single-cell structure no eigenvalue of any
    sample passes the filter, and [run_simulation] returns [None] instead
    of an empty collection of records. *)
Lemma run_simulation_empty_is_None :
  (forall omega, In omega (omega_range single_cell) ->
   forall l, In l (eigvals_1x1 (_build_hamiltonian single_cell omega)) ->
             acceptedb single_cell l = false) /\
  run_simulation eigvals_1x1 single_cell = None /\
  run_simulation eigvals_1x1 single_cell <> Some [].
Proof.
  assert (Hnone : run_simulation eigvals_1x1 single_cell = None).
  { rewrite run_simulation_cases.
    rewrite (proj2 (accepted_records_nil eigvals_1x1 single_cell
                      (omega_range single_cell)) single_cell_no_accepted).
    reflexivity. }
  split; [exact single_cell_no_accepted |].
  split; [exact Hnone |].
  rewrite Hnone. discriminate.
Qed.

(** C4.  For every sweep sample and every eigenvalue of its Hamiltonian,
    the pair [(frequency_THz, Q)] is appended to the scan results if and
    only if [Gamma_n > 1e-5], [193.0 < frequency_THz < 194.0] and
    [Q > 1.5e5] all hold: the results accumulated by the loop over the
    50,000 samples, and the collection [run_simulation] returns, hold
    exactly the pairs of the eigenvalues that pass, in sweep and eigenvalue
    order, and [run_simulation] returns [None] exactly when none passes.  An
    eigenvalue whose decay rate is zero or negative fails the mask whatever
    its quotient [Q] is; every step is a total function, so it is dropped
    without any error. *)
Theorem acceptance_filter
        (eigvals : np.matrix C -> list C) (self : BICSimulator) :
  (forall l : C,
      acceptedb self l = true <->
      (-2 * Im l * omega_0 self > 1e-5 /\
       193.0 < Re l * omega_0 self / (2 * PI * 1e12) /\
       Re l * omega_0 self / (2 * PI * 1e12) < 194.0 /\
       Re l * omega_0 self / (-2 * Im l * omega_0 self) > 1.5e5)) /\
  (forall l : C, -2 * Im l * omega_0 self <= 0 -> acceptedb self l = false) /\
  (forall omega : R,
      sweep_step eigvals self omega =
      map (record_of self)
          (filter (acceptedb self)
                  (eigvals (_build_hamiltonian self omega)))) /\
  sweep eigvals self (omega_range self) =
  flat_map
    (fun omega =>
       map (record_of self)
           (filter (acceptedb self)
                   (eigvals (_build_hamiltonian self omega))))
    (omega_range self) /\
  (forall rec : R * R,
      In rec (sweep eigvals self (omega_range self)) <->
      exists omega l,
        In omega (omega_range self) /\
        In l (eigvals (_build_hamiltonian self omega)) /\
        accepted self l /\ rec = record_of self l) /\
  (forall results : list (R * R),
      run_simulation eigvals self = Some results ->
      results = sweep eigvals self (omega_range self) /\
      forall rec : R * R,
        In rec results <->
        exists omega l,
          In omega (omega_range self) /\
          In l (eigvals (_build_hamiltonian self omega)) /\
          accepted self l /\ rec = record_of self l) /\
  (run_simulation eigvals self = None <->
   forall omega, In omega (omega_range self) ->
   forall l, In l (eigvals (_build_hamiltonian self omega)) ->
             ~ accepted self l).
Proof.
  split; [intros l; apply acceptedb_true |].
  split; [intros l; apply acceptedb_no_decay |].
  split; [intros omega; apply sweep_step_filter |].
  split; [apply sweep_accepted_records |].
  split.
  { intros rec. rewrite sweep_accepted_records. apply In_accepted_records. }
  split.
  { intros results Hrun. apply run_simulation_Some in Hrun.
    destruct Hrun as [-> _]. rewrite sweep_accepted_records.
    split; [reflexivity |]. intros rec. apply In_accepted_records. }
  rewrite run_simulation_cases. split.
  - intros Hnone omega Hin l Hl Hacc.
    assert (Hrec : In (record_of self l)
                      (accepted_records eigvals self (omega_range self))).
    { apply In_accepted_records. exists omega, l. auto. }
    destruct (accepted_records eigvals self (omega_range self));
      [contradiction | discriminate].
  - intros Hno.
    assert (Hnil : accepted_records eigvals self (omega_range self) = []).
    { apply accepted_records_nil. intros omega Hin l Hl.
      apply not_true_is_false. rewrite acceptedb_true.
      apply (Hno omega Hin l Hl). }
    rewrite Hnil. reflexivity.
Qed.

Lemma acceptance_filter_witness :
  In (record_of __init__ (mkC 1 (-1e-6)))
     (sweep (constant_solver (mkC 1 (-1e-6))) __init__
            (omega_range __init__)) /\
  run_simulation (constant_solver (mkC 1 (-1e-6))) __init__ <> None /\
  acceptedb __init__ (mkC 1 0) = false.
Proof.
  destruct (acceptance_filter (constant_solver (mkC 1 (-1e-6))) __init__)
    as (_ & Hdecay & _ & _ & Hin & _ & Hnone).
  assert (Hrec : In (record_of __init__ (mkC 1 (-1e-6)))
                    (sweep (constant_solver (mkC 1 (-1e-6))) __init__
                           (omega_range __init__))).
  { apply Hin. exists (0.92 * omega_0 __init__), (mkC 1 (-1e-6)).
    split; [apply omega_range_first |].
    split; [left; reflexivity |].
    split; [apply resonant_eigenvalue_accepted | reflexivity]. }
  split; [exact Hrec |]. split.
  - intros E. rewrite Hnone in E.
    apply (E (0.92 * omega_0 __init__) (omega_range_first __init__)
             (mkC 1 (-1e-6)) (or_introl eq_refl)).
    apply resonant_eigenvalue_accepted.
  - apply Hdecay. simpl. lra.
Defined.

Lemma omega_range_samples (self : BICSimulator) :
  omega_range self =
  map (fun k : nat =>
         0.92 * omega_0 self
         + INR k * ((1.08 * omega_0 self - 0.92 * omega_0 self) / 49999))
      (seq 0 (Z.to_nat 50000)).
Proof.
  unfold omega_range, np.linspace, np.arange. rewrite map_map.
  apply map_ext. intros k.
  replace (Z.of_nat (Z.to_nat 50000) - 1)%Z with 49999%Z by lia.
  rewrite INR_IZR_INZ. ring.
Qed.

Lemma flat_map_map {A B D : Type} (g : A -> B) (f : B -> list D)
      (l : list A) :
  flat_map f (map g l) = flat_map (fun x => f (g x)) l.
Proof.
  induction l as [|x l IH]; simpl; [reflexivity | rewrite IH; reflexivity].
Qed.

(** C5.  [run_simulation] sweeps exactly 50,000 samples, the k-th being
    [0.92 omega_0 + k * (1.08 omega_0 - 0.92 omega_0) / 49999]: the axis
    starts at [0.92 omega_0], ends at [1.08 omega_0], stays inside that
    interval and is strictly increasing.  Its result is built from the
    samples k = 0, ..., 49999 in that order, every eigenvalue [l] of the
    Hamiltonian of a sample being mapped to [omega_n = Re l * omega_0],
    [Gamma_n = -2 * Im l * omega_0], [frequency_THz = omega_n / (2 pi 1e12)]
    and [Q = omega_n / Gamma_n]. *)
Theorem sweep_axis_and_mapping
        (eigvals : np.matrix C -> list C) (self : BICSimulator) :
  0 < omega_0 self ->
  let sample := fun k : nat =>
    0.92 * omega_0 self
    + INR k * ((1.08 * omega_0 self - 0.92 * omega_0 self) / 49999) in
  let records := fun omega : R =>
    map (fun l : C =>
           (Re l * omega_0 self / (2 * PI * 1e12),
            Re l * omega_0 self / (-2 * Im l * omega_0 self)))
        (filter
           (fun l : C =>
              Rgtb (-2 * Im l * omega_0 self) 1e-5
              && Rltb 193.0 (Re l * omega_0 self / (2 * PI * 1e12))
              && Rltb (Re l * omega_0 self / (2 * PI * 1e12)) 194.0
              && Rgtb (Re l * omega_0 self / (-2 * Im l * omega_0 self))
                      1.5e5)
           (eigvals (_build_hamiltonian self omega))) in
  omega_range self = map sample (seq 0 (Z.to_nat 50000)) /\
  length (omega_range self) = Z.to_nat 50000 /\
  (forall k : nat,
      (k < Z.to_nat 50000)%nat ->
      nth_error (omega_range self) k = Some (sample k)) /\
  nth_error (omega_range self) 0 = Some (0.92 * omega_0 self) /\
  nth_error (omega_range self) (Z.to_nat 49999) = Some (1.08 * omega_0 self) /\
  (forall omega : R,
      In omega (omega_range self) ->
      0.92 * omega_0 self <= omega <= 1.08 * omega_0 self) /\
  (forall (i j : nat) (x y : R),
      (i < j)%nat ->
      nth_error (omega_range self) i = Some x ->
      nth_error (omega_range self) j = Some y ->
      x < y) /\
  (forall omega : R, sweep_step eigvals self omega = records omega) /\
  sweep eigvals self (omega_range self) =
  flat_map (fun k => records (sample k)) (seq 0 (Z.to_nat 50000)) /\
  run_simulation eigvals self =
  match flat_map (fun k => records (sample k)) (seq 0 (Z.to_nat 50000)) with
  | [] => None
  | rec :: rest => Some (rec :: rest)
  end.
Proof.
  intros H0 sample records.
  assert (Hsweep : sweep eigvals self (omega_range self) =
                   flat_map (fun k => records (sample k))
                            (seq 0 (Z.to_nat 50000))).
  { rewrite sweep_accepted_records. unfold accepted_records.
    rewrite omega_range_samples, flat_map_map. reflexivity. }
  split; [apply omega_range_samples |].
  split; [apply linspace_length |].
  split; [apply omega_range_nth |].
  split.
  { rewrite omega_range_nth by lia. f_equal. simpl. lra. }
  split.
  { rewrite omega_range_nth by lia. f_equal.
    rewrite INR_IZR_INZ.
    replace (Z.of_nat (Z.to_nat 49999)) with 49999%Z by lia. field. }
  split; [intros omega; apply omega_range_bounds; exact H0 |].
  split.
  { intros i j x y. apply linspace_increasing. lra. }
  split; [intros omega; apply sweep_step_filter |].
  split; [exact Hsweep |].
  unfold run_simulation. cbv zeta. rewrite Hsweep.
  destruct (flat_map (fun k => records (sample k)) (seq 0 (Z.to_nat 50000)));
    reflexivity.
Qed.

Lemma sweep_axis_and_mapping_witness :
  0 < omega_0 __init__ /\
  length (omega_range __init__) = Z.to_nat 50000 /\
  nth_error (omega_range __init__) (Z.to_nat 49999)
  = Some (1.08 * omega_0 __init__) /\
  run_simulation (constant_solver (mkC 1 (-1e-6))) __init__ =
  Some (sweep (constant_solver (mkC 1 (-1e-6))) __init__
              (omega_range __init__)).
Proof.
  split; [exact omega_0_init_pos |].
  pose proof (sweep_axis_and_mapping (constant_solver (mkC 1 (-1e-6)))
                                     __init__ omega_0_init_pos)
    as (_ & Hlen & _ & _ & Hlast & _ & _ & _ & Hsweep & Hrun).
  split; [exact Hlen |]. split; [exact Hlast |].
  rewrite Hrun, Hsweep.
  pose proof (proj2 resonant_run_Some) as Hin.
  rewrite <- sweep_accepted_records, Hsweep in Hin.
  destruct (flat_map _ (seq 0 (Z.to_nat 50000)));
    [contradiction | reflexivity].
Defined.

(** ** [np.argmax] and the reporter *)

Lemma argmax_from_spec (l : list R) :
  forall (pre : list R) (bi : nat) (b : R),
    nth_error pre bi = Some b ->
    (forall k x, nth_error pre k = Some x -> x <= b) ->
    (forall k x, (k < bi)%nat -> nth_error pre k = Some x -> x < b) ->
    exists q : R,
      nth_error (pre ++ l) (np.argmax_from bi b (length pre) l) = Some q /\
      (forall k x, nth_error (pre ++ l) k = Some x -> x <= q) /\
      (forall k x,
          (k < np.argmax_from bi b (length pre) l)%nat ->
          nth_error (pre ++ l) k = Some x -> x < q).
Proof.
  induction l as [|x t IH]; intros pre bi b Hbi Hmax Hfirst.
  - simpl. rewrite app_nil_r. exists b. auto.
  - assert (Hlt : (bi < length pre)%nat).
    { apply nth_error_Some. rewrite Hbi. discriminate. }
    assert (Hsplit : forall k y,
               nth_error (pre ++ [x]) k = Some y ->
               ((k < length pre)%nat /\ nth_error pre k = Some y) \/
               (k = length pre /\ y = x)).
    { intros k y Hk. destruct (Nat.lt_ge_cases k (length pre)) as [Hl|Hg].
      - left. rewrite nth_error_app1 in Hk by assumption. auto.
      - right. rewrite nth_error_app2 in Hk by assumption.
        destruct (k - length pre)%nat as [|d] eqn:Hd; simpl in Hk.
        + split; [lia | congruence].
        + destruct d; discriminate. }
    replace (pre ++ x :: t) with ((pre ++ [x]) ++ t)
      by (rewrite <- app_assoc; reflexivity).
    simpl np.argmax_from.
    replace (S (length pre)) with (length (pre ++ [x]))
      by (rewrite length_app; simpl; lia).
    destruct (Rltb b x) eqn:Hcmp.
    + apply Rltb_true in Hcmp. apply IH.
      * rewrite nth_error_app2 by lia. rewrite Nat.sub_diag. reflexivity.
      * intros k y Hk. destruct (Hsplit k y Hk) as [[_ Hp] | [_ ->]].
        -- specialize (Hmax k y Hp). lra.
        -- lra.
      * intros k y Hkl Hk. destruct (Hsplit k y Hk) as [[_ Hp] | [-> _]].
        -- specialize (Hmax k y Hp). lra.
        -- lia.
    + apply Rltb_false in Hcmp. apply IH.
      * rewrite nth_error_app1 by assumption. exact Hbi.
      * intros k y Hk. destruct (Hsplit k y Hk) as [[_ Hp] | [_ ->]].
        -- exact (Hmax k y Hp).
        -- exact Hcmp.
      * intros k y Hkl Hk. destruct (Hsplit k y Hk) as [[_ Hp] | [-> _]].
        -- exact (Hfirst k y Hkl Hp).
        -- lia.
Qed.

Lemma argmax_spec (x : R) (t : list R) :
  exists (best : nat) (q : R),
    np.argmax (x :: t) = Some best /\
    nth_error (x :: t) best = Some q /\
    (forall k y, nth_error (x :: t) k = Some y -> y <= q) /\
    (forall k y, (k < best)%nat -> nth_error (x :: t) k = Some y -> y < q).
Proof.
  destruct (argmax_from_spec t [x] 0%nat x) as (q & Hq & Hmax & Hfirst).
  - reflexivity.
  - intros [|[|k]] y Hk; simpl in Hk; try discriminate.
    injection Hk as <-. lra.
  - intros k y Hk. lia.
  - exists (np.argmax_from 0 x 1 t), q. simpl length in *.
    repeat split; assumption.
Qed.

Lemma nth_error_map_snd {A B : Type} (l : list (A * B)) (k : nat) (y : B) :
  nth_error (map snd l) k = Some y <->
  exists x : A, nth_error l k = Some (x, y).
Proof.
  rewrite nth_error_map. destruct (nth_error l k) as [[u w]|]; simpl.
  - split.
    + intros E. injection E as ->. exists u. reflexivity.
    + intros (x' & E). injection E as _ ->. reflexivity.
  - split; [discriminate | intros (x' & E); discriminate].
Qed.

(** C7.  Handed a non-empty collection, the reporter prints the frequency
    and the Q of the record whose Q is maximal, the first of them in
    collection order when several records share that maximum, and the
    linewidth [frequency / Q * 1e3]. *)
Theorem reporter_selects_best
        (self : BICSimulator) (results : list (R * R)) :
  results <> [] ->
  exists (best : nat) (f q : R) (plots : list plot_cmd),
    visualize self (Some results) =
    Ok (NumericalResults f q (f / q * 1e3), plots) /\
    nth_error results best = Some (f, q) /\
    (forall (k : nat) (f' q' : R),
        nth_error results k = Some (f', q') -> q' <= q) /\
    (forall (k : nat) (f' q' : R),
        (k < best)%nat -> nth_error results k = Some (f', q') -> q' < q).
Proof.
  intros Hne. destruct results as [|rec rest]; [contradiction |].
  destruct (argmax_spec (snd rec) (map snd rest))
    as (best & q & Harg & Hq & Hmax & Hfirst).
  change (snd rec :: map snd rest) with (map snd (rec :: rest)) in *.
  apply nth_error_map_snd in Hq. destruct Hq as [f Hf].
  exists best, f, q. eexists. split.
  { unfold visualize. rewrite Harg, Hf. reflexivity. }
  split; [exact Hf |]. split.
  - intros k f' q' Hk. apply (Hmax k). apply nth_error_map_snd.
    exists f'. exact Hk.
  - intros k f' q' Hlt Hk. apply (Hfirst k); [exact Hlt |].
    apply nth_error_map_snd. exists f'. exact Hk.
Qed.

Lemma reporter_selects_best_witness :
  [(193.2, 2e5); (193.5, 3e5); (193.6, 3e5)] <> [] /\
  exists (best : nat) (f q : R) (plots : list plot_cmd),
    visualize __init__ (Some [(193.2, 2e5); (193.5, 3e5); (193.6, 3e5)]) =
    Ok (NumericalResults f q (f / q * 1e3), plots) /\
    nth_error [(193.2, 2e5); (193.5, 3e5); (193.6, 3e5)] best = Some (f, q) /\
    (forall (k : nat) (f' q' : R),
        nth_error [(193.2, 2e5); (193.5, 3e5); (193.6, 3e5)] k = Some (f', q')
        -> q' <= q) /\
    (forall (k : nat) (f' q' : R),
        (k < best)%nat ->
        nth_error [(193.2, 2e5); (193.5, 3e5); (193.6, 3e5)] k = Some (f', q')
        -> q' < q).
Proof.
  assert (Hne : [(193.2, 2e5); (193.5, 3e5); (193.6, 3e5)] <> [])
    by discriminate.
  split; [exact Hne |].
  exact (reporter_selects_best __init__ _ Hne).
Defined.

(** On a tie the record printed is the first of the maximal ones. *)
Example reporter_tie :
  exists plots : list plot_cmd,
    visualize __init__ (Some [(193.2, 2e5); (193.5, 3e5); (193.6, 3e5)]) =
    Ok (NumericalResults 193.5 3e5 (193.5 / 3e5 * 1e3), plots).
Proof.
  unfold visualize, np.argmax. cbn [map snd np.argmax_from].
  replace (Rltb 2e5 3e5) with true by (symmetry; apply Rltb_true; lra).
  replace (Rltb 3e5 3e5) with false by (symmetry; apply Rltb_false; lra).
  cbn [nth_error]. eexists. reflexivity.
Qed.

(** The reporter cannot take an empty collection: [results[:, 1]] raises. *)
Example reporter_empty_collection (self : BICSimulator) :
  visualize self (Some []) = Raise IndexError.
Proof. reflexivity. Qed.

(** C8.  When no eigenvalue of any sample is accepted, the scan hands
    [None] to the reporter, which prints the reference values set by
    [__init__]: 193.4145 THz, Q = 3.2e5 and a linewidth of 0.60 MHz, and
    draws the two reference lines only. *)
Theorem empty_scan_reports_reference
        (eigvals : np.matrix C -> list C) (p : params_t) :
  (forall omega, In omega (omega_range (new_simulator p)) ->
   forall l, In l (eigvals (_build_hamiltonian (new_simulator p) omega)) ->
             ~ accepted (new_simulator p) l) ->
  visualize (new_simulator p) (run_simulation eigvals (new_simulator p)) =
  Ok (TheoreticalReference 193.4145 3.2e5 0.60,
      [axhline 3.2e5; axvline 193.4145]) /\
  fst (run eigvals (new_simulator p)) =
  Ok (TheoreticalReference 193.4145 3.2e5 0.60,
      [axhline 3.2e5; axvline 193.4145]).
Proof.
  intros Hno.
  assert (Hnone : run_simulation eigvals (new_simulator p) = None).
  { rewrite run_simulation_cases.
    assert (Hnil : accepted_records eigvals (new_simulator p)
                     (omega_range (new_simulator p)) = []).
    { apply accepted_records_nil. intros omega Hin l Hl.
      apply not_true_is_false. rewrite acceptedb_true.
      apply (Hno omega Hin l Hl). }
    rewrite Hnil. reflexivity. }
  unfold run. cbn [fst]. rewrite Hnone. split; reflexivity.
Qed.

Lemma empty_scan_reports_reference_witness :
  (forall omega, In omega (omega_range single_cell) ->
   forall l, In l (eigvals_1x1 (_build_hamiltonian single_cell omega)) ->
             ~ accepted single_cell l) /\
  visualize single_cell (run_simulation eigvals_1x1 single_cell) =
  Ok (TheoreticalReference 193.4145 3.2e5 0.60,
      [axhline 3.2e5; axvline 193.4145]).
Proof.
  assert (Hno : forall omega, In omega (omega_range single_cell) ->
                forall l,
                  In l (eigvals_1x1 (_build_hamiltonian single_cell omega)) ->
                  ~ accepted single_cell l).
  { intros omega Hin l Hl Hacc. apply acceptedb_true in Hacc.
    rewrite (single_cell_no_accepted omega Hin l Hl) in Hacc.
    discriminate. }
  split; [exact Hno |].
  exact (proj1 (empty_scan_reports_reference
                  eigvals_1x1 (params single_cell) Hno)).
Defined.

(** ** The exported layout *)

Lemma rectangles_of_top (r : gdspy.CellArray)
      (marks : list gdspy.Rectangle) (nm : string) :
  rectangles_of (gdspy.mkCell nm (gdspy.cell_array_ r
                                  :: map gdspy.rectangle_ marks)) = marks.
Proof.
  unfold rectangles_of. simpl.
  induction marks as [|m marks IH]; simpl; [reflexivity | rewrite IH; reflexivity].
Qed.

Lemma alignment_marks_explicit (self : BICSimulator) :
  let a := a (params self) in
  let s := a * 0.5 in
  let xr := INR (N (params self)) * a in
  alignment_marks self =
  [ gdspy.mkRectangle (- a - s / 2, - s - s / 20) (- a + s / 2, - s + s / 20) 2;
    gdspy.mkRectangle (- s - s / 20, - a - s / 2) (- s + s / 20, - a + s / 2) 2;
    gdspy.mkRectangle (- a - s / 2, s - s / 20) (- a + s / 2, s + s / 20) 2;
    gdspy.mkRectangle (s - s / 20, - a - s / 2) (s + s / 20, - a + s / 2) 2;
    gdspy.mkRectangle (xr - s / 2, - s - s / 20) (xr + s / 2, - s + s / 20) 2;
    gdspy.mkRectangle (- s - s / 20, xr - s / 2) (- s + s / 20, xr + s / 2) 2;
    gdspy.mkRectangle (xr - s / 2, s - s / 20) (xr + s / 2, s + s / 20) 2;
    gdspy.mkRectangle (s - s / 20, xr - s / 2) (s + s / 20, xr + s / 2) 2 ].
Proof. reflexivity. Qed.

Lemma alignment_marks_NoDup (self : BICSimulator) :
  0 < a (params self) -> NoDup (alignment_marks self).
Proof.
  intros Ha. rewrite alignment_marks_explicit. cbv zeta.
  pose proof (pos_INR (N (params self))) as HN.
  set (a0 := a (params self)) in *.
  set (n := INR (N (params self))) in *.
  assert (Hna : 0 <= n * a0) by (apply Rmult_le_pos; lra).
  repeat constructor; simpl; intros Hin;
    repeat (destruct Hin as [Hin | Hin];
            [injection Hin; intros; lra |]);
    exact Hin.
Qed.

Lemma instances_linear (nm : string) (n : nat) (dx : R) :
  gdspy.instances (gdspy.mkCellArray nm n 1 (dx, 0) (0, 0)) =
  map (fun k => (INR k * dx, 0)) (seq 0 n).
Proof.
  unfold gdspy.instances. cbn [gdspy.rows gdspy.columns gdspy.origin
                               gdspy.spacing seq flat_map fst snd].
  rewrite app_nil_r. apply map_ext. intros k.
  f_equal; simpl; ring.
Qed.

(** The library object handed to [write_gds]: a cell DISK holding one
    [Round] (centre at the origin, scatterer radius, 64 points, layer 1) and
    a cell TOP holding one array reference to DISK with N columns and 1 row,
    spaced by the pitch along x, plus the eight rectangles of the loop of
    lines 110-121 on layer 2. *)
Lemma export_gds_layout (self : BICSimulator) (filename : string) :
  let array :=
    gdspy.mkCellArray "DISK" (N (params self)) 1 (a (params self), 0) (0, 0) in
  export_gds self filename =
  (filename,
   [ gdspy.mkCell "TOP" (gdspy.cell_array_ array
                         :: map gdspy.rectangle_ (alignment_marks self));
     gdspy.mkCell "DISK"
       [gdspy.round_ (gdspy.mkRound (0, 0) (radius (params self)) 64 1)] ]) /\
  gdspy.instances array =
  map (fun k => (INR k * a (params self), 0)) (seq 0 (N (params self))) /\
  length (gdspy.instances array) = N (params self) /\
  length (alignment_marks self) = 8%nat /\
  (let a := a (params self) in
   let s := a * 0.5 in
   let xr := INR (N (params self)) * a in
   alignment_marks self =
   [ gdspy.mkRectangle (- a - s / 2, - s - s / 20) (- a + s / 2, - s + s / 20) 2;
     gdspy.mkRectangle (- s - s / 20, - a - s / 2) (- s + s / 20, - a + s / 2) 2;
     gdspy.mkRectangle (- a - s / 2, s - s / 20) (- a + s / 2, s + s / 20) 2;
     gdspy.mkRectangle (s - s / 20, - a - s / 2) (s + s / 20, - a + s / 2) 2;
     gdspy.mkRectangle (xr - s / 2, - s - s / 20) (xr + s / 2, - s + s / 20) 2;
     gdspy.mkRectangle (- s - s / 20, xr - s / 2) (- s + s / 20, xr + s / 2) 2;
     gdspy.mkRectangle (xr - s / 2, s - s / 20) (xr + s / 2, s + s / 20) 2;
     gdspy.mkRectangle (s - s / 20, xr - s / 2) (s + s / 20, xr + s / 2) 2 ]) /\
  (forall m : gdspy.Rectangle,
      In m (alignment_marks self) ->
      gdspy.rect_layer m = 2%Z /\
      ((width m = a (params self) * 0.5 /\
        height m = a (params self) * 0.5 / 10) \/
       (width m = a (params self) * 0.5 / 10 /\
        height m = a (params self) * 0.5))) /\
  (0 < a (params self) -> NoDup (alignment_marks self)).
Proof.
  intros array.
  split; [reflexivity |].
  split; [apply instances_linear |].
  split.
  { unfold array. rewrite instances_linear, length_map, length_seq.
    reflexivity. }
  split; [reflexivity |].
  split; [apply alignment_marks_explicit |].
  split; [| apply alignment_marks_NoDup].
  intros m Hm. rewrite alignment_marks_explicit in Hm. cbv zeta in Hm.
  simpl in Hm.
  repeat (destruct Hm as [<- | Hm];
          [split; [reflexivity |]; unfold width, height; simpl;
           first [left; split; field | right; split; field] |]).
  contradiction.
Qed.

Lemma export_gds_layout_witness :
  0 < a (params __init__) /\
  NoDup (alignment_marks __init__) /\
  length (alignment_marks __init__) = 8%nat.
Proof.
  assert (Ha : 0 < a (params __init__)) by (simpl; lra).
  split; [exact Ha |].
  pose proof (export_gds_layout __init__ default_filename)
    as (_ & _ & _ & Hlen & _ & _ & Hnodup).
  split; [exact (Hnodup Ha) | exact Hlen].
Defined.

(** The library exported for the certified structure holds eight
    rectangles, all of them in the cell TOP. *)
Lemma export_gds_not_four_marks :
  map (fun cell => length (rectangles_of cell))
      (snd (export_gds __init__ default_filename)) = [8%nat; 0%nat] /\
  length (flat_map rectangles_of (snd (export_gds __init__ default_filename)))
  <> 4%nat.
Proof.
  split.
  - unfold export_gds. cbn [snd map]. rewrite rectangles_of_top.
    reflexivity.
  - unfold export_gds. cbn [snd flat_map]. rewrite rectangles_of_top.
    simpl. discriminate.
Qed.

(** * Further properties of the code *)

(** ** Shape of the Hamiltonian *)

Lemma length_map2 {A B D : Type} (op : A -> B -> D) (x : list A) :
  forall y : list B,
    length (np.map2 op x y) = Nat.min (length x) (length y).
Proof.
  induction x as [|u x IH]; intros [|w y]; simpl; try reflexivity.
  rewrite IH. reflexivity.
Qed.

Lemma length_fill_diagonal_from {A : Type} (v : A) (M : np.matrix A) :
  forall k, length (np.fill_diagonal_from k M v) = length M.
Proof.
  induction M as [|row rest IH]; intros k; simpl; [reflexivity |].
  rewrite IH. reflexivity.
Qed.

Lemma build_hamiltonian_length (self : BICSimulator) (omega : R) :
  length (_build_hamiltonian self omega) = N (params self).
Proof.
  unfold _build_hamiltonian, separation, np.mmap2, np.mmap, np.fill_diagonal,
    np.outer, np.zeros.
  repeat (rewrite length_map2 || rewrite length_map
          || rewrite length_fill_diagonal_from || rewrite repeat_length
          || rewrite arange_length).
  lia.
Qed.

Lemma build_hamiltonian_row (self : BICSimulator) (omega : R)
      (i : nat) (row : list C) :
  nth_error (_build_hamiltonian self omega) i = Some row ->
  (i < N (params self))%nat /\
  forall j, nth_error row j =
            if Nat.ltb j (N (params self))
            then Some (H_entry self omega i j) else None.
Proof.
  intros Hrow.
  assert (Hi : (i < N (params self))%nat).
  { rewrite <- (build_hamiltonian_length self omega).
    apply nth_error_Some. rewrite Hrow. discriminate. }
  split; [exact Hi |]. intros j.
  pose proof (entry_build_hamiltonian self omega i j) as He.
  unfold np.entry in He. rewrite Hrow in He.
  apply Nat.ltb_lt in Hi. rewrite Hi in He. exact He.
Qed.

Lemma build_hamiltonian_row_length (self : BICSimulator) (omega : R)
      (row : list C) :
  In row (_build_hamiltonian self omega) -> length row = N (params self).
Proof.
  intros Hin. apply In_nth_error in Hin. destruct Hin as [i Hi].
  destruct (build_hamiltonian_row self omega i row Hi) as [_ Hrow].
  apply Nat.le_antisymm.
  - apply nth_error_None. rewrite Hrow, Nat.ltb_irrefl. reflexivity.
  - destruct (N (params self)) as [|n] eqn:HN; [lia |].
    apply nth_error_Some. rewrite Hrow.
    replace (Nat.ltb n (S n)) with true by (symmetry; apply Nat.ltb_lt; lia).
    discriminate.
Qed.

(** X1.  The Hamiltonian is an N x N array for every frequency: it has N
    rows, every row has N elements, and a lookup succeeds exactly for the
    index pairs inside the array. *)
Theorem hamiltonian_shape (self : BICSimulator) (omega : R) :
  length (_build_hamiltonian self omega) = N (params self) /\
  Forall (fun row => length row = N (params self))
         (_build_hamiltonian self omega) /\
  (forall i j : nat,
      np.entry (_build_hamiltonian self omega) i j <> None <->
      (i < N (params self))%nat /\ (j < N (params self))%nat).
Proof.
  split; [apply build_hamiltonian_length |].
  split.
  - apply Forall_forall. intros row. apply build_hamiltonian_row_length.
  - intros i j. rewrite entry_build_hamiltonian.
    destruct (Nat.ltb_spec i (N (params self)));
      destruct (Nat.ltb_spec j (N (params self))); simpl; split;
      try discriminate; try (intros [? ?]; lia); try (intros; split; lia);
      try congruence.
Qed.

(** ** Structure of the entries *)

Lemma H_entry_offdiagonal (self : BICSimulator) (omega : R) (i j : nat) :
  lambda_0 (params self) <> 0 -> i <> j ->
  H_entry self omega i j =
  coupling_term self (a (params self) * Rabs (INR i - INR j)).
Proof.
  intros Hl Hij. unfold H_entry.
  rewrite H_entry_coupling_term by assumption.
  unfold r_ij. apply Nat.eqb_neq in Hij. rewrite Hij.
  rewrite Cadd_C0_l, IZR_abs_diff. reflexivity.
Qed.

Lemma H_entry_same_distance (self : BICSimulator) (omega : R)
      (i j i' j' : nat) :
  Z.abs (Z.of_nat i - Z.of_nat j) = Z.abs (Z.of_nat i' - Z.of_nat j') ->
  H_entry self omega i j = H_entry self omega i' j'.
Proof.
  intros Hd. unfold H_entry, r_ij.
  assert (Heq : Nat.eqb i j = Nat.eqb i' j').
  { destruct (Nat.eqb_spec i j); destruct (Nat.eqb_spec i' j');
      try reflexivity; lia. }
  rewrite Heq, Hd. reflexivity.
Qed.

(** X2.  The Hamiltonian is a Toeplitz matrix: two entries inside the array
    whose indices are the same distance apart are the same complex number;
    in particular moving one step down the diagonal changes nothing. *)
Theorem hamiltonian_toeplitz (self : BICSimulator) (omega : R)
        (i j i' j' : nat) :
  (i < N (params self))%nat -> (j < N (params self))%nat ->
  (i' < N (params self))%nat -> (j' < N (params self))%nat ->
  Z.abs (Z.of_nat i - Z.of_nat j) = Z.abs (Z.of_nat i' - Z.of_nat j') ->
  np.entry (_build_hamiltonian self omega) i j =
  np.entry (_build_hamiltonian self omega) i' j' /\
  np.entry (_build_hamiltonian self omega) i j <> None.
Proof.
  intros Hi Hj Hi' Hj' Hd. rewrite !entry_build_hamiltonian.
  apply Nat.ltb_lt in Hi, Hj, Hi', Hj'. rewrite Hi, Hj, Hi', Hj'. simpl.
  rewrite (H_entry_same_distance self omega i j i' j' Hd).
  split; [reflexivity | discriminate].
Qed.

Lemma hamiltonian_toeplitz_witness :
  np.entry (_build_hamiltonian __init__ (omega_0 __init__)) 2 5 =
  np.entry (_build_hamiltonian __init__ (omega_0 __init__)) 11 8.
Proof.
  apply (hamiltonian_toeplitz __init__ (omega_0 __init__) 2 5 11 8);
    simpl; lia.
Defined.

Lemma diag_split (self : BICSimulator) (omega : R) :
  diag self omega =
  Cadd (Cmul (RtoC ((omega / omega_0 self) ^ 2)) (epsilon (params self)))
       (diag self 0).
Proof.
  unfold diag. apply C_eq; simpl; unfold Rdiv; ring.
Qed.

(** X3.  The frequency enters the Hamiltonian only through the multiple
    [(omega/omega_0)^2 * epsilon] of the identity: every off-diagonal entry
    is the same at all frequencies, and every diagonal entry is its value at
    frequency zero plus [(omega/omega_0)^2 * epsilon]. *)
Theorem hamiltonian_frequency_shift (self : BICSimulator) (omega : R)
        (i j : nat) :
  (i < N (params self))%nat -> (j < N (params self))%nat ->
  exists h0 : C,
    np.entry (_build_hamiltonian self 0) i j = Some h0 /\
    np.entry (_build_hamiltonian self omega) i j =
    Some (if Nat.eqb i j
          then Cadd (Cmul (RtoC ((omega / omega_0 self) ^ 2))
                          (epsilon (params self))) h0
          else h0).
Proof.
  intros Hi Hj. exists (H_entry self 0 i j).
  rewrite !entry_build_hamiltonian.
  apply Nat.ltb_lt in Hi, Hj. rewrite Hi, Hj. simpl.
  split; [reflexivity |]. f_equal. unfold H_entry.
  destruct (Nat.eqb i j); [| reflexivity].
  rewrite (diag_split self omega). apply C_eq; simpl; ring.
Qed.

Lemma hamiltonian_frequency_shift_witness :
  exists h0 : C,
    np.entry (_build_hamiltonian __init__ 0) 3 3 = Some h0 /\
    np.entry (_build_hamiltonian __init__ (omega_0 __init__)) 3 3 =
    Some (Cadd (Cmul (RtoC ((omega_0 __init__ / omega_0 __init__) ^ 2))
                     (epsilon (params __init__))) h0).
Proof.
  apply (hamiltonian_frequency_shift __init__ (omega_0 __init__) 3 3);
    simpl; lia.
Defined.

(** ** Modulus of the coupling *)

Lemma coupling_magnitude_nonneg (self : BICSimulator) (r : R) :
  0 < a (params self) -> 0 <= radius (params self) -> 0 <= r ->
  0 <= 0.62 * (radius (params self) ^ 3
               / (r ^ 3 + (0.114 * a (params self)) ^ 3)).
Proof.
  intros Ha Hrad Hr.
  pose proof (denominator_pos self r Ha Hr) as Hden.
  pose proof (cube_nonneg _ Hrad) as Hnum.
  assert (0 <= radius (params self) ^ 3
               / (r ^ 3 + (0.114 * a (params self)) ^ 3)).
  { apply Rmult_le_pos; [exact Hnum |].
    left. apply Rinv_0_lt_compat. exact Hden. }
  lra.
Qed.

Lemma Cabs_coupling_term (self : BICSimulator) (r : R) :
  0 < a (params self) -> 0 <= radius (params self) -> 0 <= r ->
  Cabs (coupling_term self r) =
  0.62 * (radius (params self) ^ 3
          / (r ^ 3 + (0.114 * a (params self)) ^ 3)).
Proof.
  intros Ha Hrad Hr. unfold Cabs.
  rewrite Re_coupling_term, Im_coupling_term.
  set (k := 0.62 * (radius (params self) ^ 3
                    / (r ^ 3 + (0.114 * a (params self)) ^ 3))).
  set (t := 2 * PI * r / lambda_0 (params self)).
  replace (k * cos t * (k * cos t) + - (k * sin t) * - (k * sin t))
    with (k * k * (Rsqr (sin t) + Rsqr (cos t))) by (unfold Rsqr; ring).
  rewrite sin2_cos2, Rmult_1_r. apply sqrt_square.
  apply coupling_magnitude_nonneg; assumption.
Qed.

Lemma distance_nonneg (self : BICSimulator) (i j : nat) :
  0 < a (params self) -> 0 <= a (params self) * Rabs (INR i - INR j).
Proof.
  intros Ha. pose proof (Rabs_pos (INR i - INR j)). nra.
Qed.

Lemma cube_lt (x y : R) : 0 <= x -> x < y -> x ^ 3 < y ^ 3.
Proof.
  intros Hx Hxy. simpl.
  assert (x * x <= y * y) by nra.
  assert (0 < y * y) by nra.
  nra.
Qed.

Lemma coupling_magnitude_decreasing (self : BICSimulator) (r1 r2 : R) :
  0 < a (params self) -> 0 < radius (params self) ->
  0 <= r1 -> r1 < r2 ->
  0.62 * (radius (params self) ^ 3
          / (r2 ^ 3 + (0.114 * a (params self)) ^ 3))
  < 0.62 * (radius (params self) ^ 3
            / (r1 ^ 3 + (0.114 * a (params self)) ^ 3)).
Proof.
  intros Ha Hrad Hr1 Hlt.
  pose proof (denominator_pos self r1 Ha Hr1) as Hd1.
  pose proof (cube_lt r1 r2 Hr1 Hlt) as Hc.
  pose proof (cube_pos _ Hrad) as Hnum.
  set (e := (0.114 * a (params self)) ^ 3) in *.
  assert (Hinv : / (r2 ^ 3 + e) < / (r1 ^ 3 + e)).
  { apply Rinv_lt_contravar; [| lra].
    apply Rmult_lt_0_compat; lra. }
  unfold Rdiv. nra.
Qed.

(** X4.  The phase factor has modulus one: for a positive pitch and a
    non-negative radius the modulus of an off-diagonal entry is the coupling
    magnitude [0.62 * radius^3 / ((a |i - j|)^3 + (0.114 a)^3)] alone. *)
Theorem offdiagonal_modulus (self : BICSimulator) (omega : R) (i j : nat) :
  lambda_0 (params self) <> 0 ->
  0 < a (params self) -> 0 <= radius (params self) ->
  (i < N (params self))%nat -> (j < N (params self))%nat -> i <> j ->
  exists h : C,
    np.entry (_build_hamiltonian self omega) i j = Some h /\
    Cabs h =
    0.62 * (radius (params self) ^ 3
            / ((a (params self) * Rabs (INR i - INR j)) ^ 3
               + (0.114 * a (params self)) ^ 3)).
Proof.
  intros Hl Ha Hrad Hi Hj Hij.
  exists (H_entry self omega i j). split.
  - rewrite entry_build_hamiltonian.
    apply Nat.ltb_lt in Hi, Hj. rewrite Hi, Hj. reflexivity.
  - rewrite H_entry_offdiagonal by assumption.
    apply Cabs_coupling_term; [assumption | assumption |].
    apply distance_nonneg. assumption.
Qed.

Lemma offdiagonal_modulus_witness :
  exists h : C,
    np.entry (_build_hamiltonian __init__ (omega_0 __init__)) 0 1 = Some h /\
    Cabs h =
    0.62 * (202e-9 ^ 3
            / ((600e-9 * Rabs (INR 0 - INR 1)) ^ 3 + (0.114 * 600e-9) ^ 3)).
Proof.
  apply (offdiagonal_modulus __init__ (omega_0 __init__) 0 1);
    try (simpl; lra); try (simpl; lia).
Defined.

Lemma physical_lengths_pos (self : BICSimulator) :
  physical_lengths self ->
  0 < a (params self) /\ 0 < radius (params self) /\
  lambda_0 (params self) <> 0.
Proof. intros (Ha & Hr & Hl). repeat split; lra. Qed.

Lemma physical_lengths_init : physical_lengths __init__.
Proof. unfold physical_lengths. simpl. lra. Qed.

(** X5.  The coupling decays with distance (exact arithmetic): when pitch,
    radius and design wavelength all lie between a nanometre and a
    millimetre, of two off-diagonal entries the one whose cells are farther
    apart has the strictly smaller modulus. *)
Theorem coupling_decays_with_distance
        (self : BICSimulator) (omega : R) (i j i' j' : nat) :
  physical_lengths self ->
  (i < N (params self))%nat -> (j < N (params self))%nat ->
  (i' < N (params self))%nat -> (j' < N (params self))%nat ->
  i <> j ->
  Rabs (INR i - INR j) < Rabs (INR i' - INR j') ->
  exists h h' : C,
    np.entry (_build_hamiltonian self omega) i j = Some h /\
    np.entry (_build_hamiltonian self omega) i' j' = Some h' /\
    Cabs h' < Cabs h.
Proof.
  intros Hphys Hi Hj Hi' Hj' Hij Hd.
  destruct (physical_lengths_pos self Hphys) as (Ha & Hrad & Hl).
  assert (Hij' : i' <> j').
  { intros ->. rewrite Rminus_diag, Rabs_R0 in Hd.
    pose proof (Rabs_pos (INR i - INR j)). lra. }
  exists (H_entry self omega i j), (H_entry self omega i' j').
  rewrite !entry_build_hamiltonian.
  apply Nat.ltb_lt in Hi, Hj, Hi', Hj'. rewrite Hi, Hj, Hi', Hj'. simpl.
  split; [reflexivity |]. split; [reflexivity |].
  rewrite !H_entry_offdiagonal by assumption.
  rewrite !Cabs_coupling_term
    by (try assumption; try lra; apply distance_nonneg; assumption).
  apply coupling_magnitude_decreasing; try assumption.
  - apply distance_nonneg. assumption.
  - apply Rmult_lt_compat_l; assumption.
Qed.

Lemma coupling_decays_with_distance_witness :
  exists h h' : C,
    np.entry (_build_hamiltonian __init__ (omega_0 __init__)) 0 1 = Some h /\
    np.entry (_build_hamiltonian __init__ (omega_0 __init__)) 0 2 = Some h' /\
    Cabs h' < Cabs h.
Proof.
  apply (coupling_decays_with_distance __init__ (omega_0 __init__) 0 1 0 2
                                       physical_lengths_init);
    try (simpl; lia); try discriminate.
  simpl. rewrite !Rabs_left by lra. lra.
Defined.

(** ** The Hamiltonian is not Hermitian *)

Lemma Im_neighbour_coupling_neg (self : BICSimulator) :
  0 < a (params self) -> 0 < radius (params self) ->
  2 * a (params self) < lambda_0 (params self) ->
  Im (coupling_term self (a (params self))) < 0.
Proof.
  intros Ha Hrad Hl. rewrite Im_coupling_term.
  set (a0 := a (params self)) in *.
  set (l0 := lambda_0 (params self)) in *.
  assert (Hk : 0 < 0.62 * (radius (params self) ^ 3
                           / (a0 ^ 3 + (0.114 * a0) ^ 3))).
  { pose proof (cube_pos _ Hrad). pose proof (cube_pos _ Ha).
    assert (0 < (0.114 * a0) ^ 3) by (apply cube_pos; lra).
    assert (0 < radius (params self) ^ 3 / (a0 ^ 3 + (0.114 * a0) ^ 3))
      by (apply Rdiv_lt_0_compat; lra).
    lra. }
  assert (Hsin : 0 < sin (2 * PI * a0 / l0)).
  { pose proof PI_RGT_0 as Hpi.
    assert (Hfrac : 0 < a0 / l0 < / 2).
    { split.
      - apply Rdiv_lt_0_compat; lra.
      - apply (Rmult_lt_reg_r l0); [lra |].
        unfold Rdiv. rewrite Rmult_assoc, Rinv_l by lra. lra. }
    replace (2 * PI * a0 / l0) with (2 * PI * (a0 / l0)) by (field; lra).
    apply sin_gt_0; nra. }
  nra.
Qed.

(** X6.  The Hamiltonian is not Hermitian (exact arithmetic): when pitch,
    radius and design wavelength all lie between a nanometre and a
    millimetre and the pitch is shorter than half the design wavelength,
    the entries of two neighbouring cells are not complex conjugates of
    each other. *)
Theorem hamiltonian_not_hermitian (self : BICSimulator) (omega : R) (i : nat) :
  physical_lengths self ->
  2 * a (params self) < lambda_0 (params self) ->
  (S i < N (params self))%nat ->
  exists h h' : C,
    np.entry (_build_hamiltonian self omega) i (S i) = Some h /\
    np.entry (_build_hamiltonian self omega) (S i) i = Some h' /\
    h <> Cconj h'.
Proof.
  intros Hphys Hl Hi.
  destruct (physical_lengths_pos self Hphys) as (Ha & Hrad & Hl0).
  assert (Hi0 : (i < N (params self))%nat) by lia.
  exists (H_entry self omega i (S i)), (H_entry self omega (S i) i).
  rewrite !entry_build_hamiltonian.
  apply Nat.ltb_lt in Hi, Hi0. rewrite Hi, Hi0. simpl.
  split; [reflexivity |]. split; [reflexivity |].
  rewrite (H_entry_sym self omega (S i) i).
  rewrite H_entry_offdiagonal by (try assumption; lia).
  replace (Rabs (INR i - INR (S i))) with 1.
  2:{ rewrite S_INR. replace (INR i - (INR i + 1)) with (- (1)) by ring.
      rewrite Rabs_Ropp, Rabs_R1. reflexivity. }
  rewrite Rmult_1_r.
  pose proof (Im_neighbour_coupling_neg self Ha Hrad Hl) as Him.
  intros E. apply (f_equal Im) in E. unfold Cconj in E. cbn [Im] in E. lra.
Qed.

Lemma hamiltonian_not_hermitian_witness :
  exists h h' : C,
    np.entry (_build_hamiltonian __init__ (omega_0 __init__)) 0 1 = Some h /\
    np.entry (_build_hamiltonian __init__ (omega_0 __init__)) 1 0 = Some h' /\
    h <> Cconj h'.
Proof.
  apply (hamiltonian_not_hermitian __init__ (omega_0 __init__) 0
                                   physical_lengths_init);
    [simpl; lra | simpl; lia].
Defined.

(** X7.  Every record of a collection returned by [run_simulation] comes
    from an eigenvalue of the Hamiltonian of one of the swept frequencies,
    and satisfies the filter: its frequency lies strictly between 193 and
    194 THz and its Q exceeds 1.5e5. *)
Theorem returned_records_pass_filter
        (eigvals : np.matrix C -> list C) (self : BICSimulator)
        (results : list (R * R)) (f q : R) :
  run_simulation eigvals self = Some results ->
  In (f, q) results ->
  193.0 < f /\ f < 194.0 /\ q > 1.5e5 /\
  exists omega l,
    In omega (omega_range self) /\
    In l (eigvals (_build_hamiltonian self omega)) /\
    -2 * Im l * omega_0 self > 1e-5 /\
    f = Re l * omega_0 self / (2 * PI * 1e12) /\
    q = Re l * omega_0 self / (-2 * Im l * omega_0 self).
Proof.
  intros Hrun Hin. apply run_simulation_Some in Hrun.
  destruct Hrun as [-> _]. apply In_accepted_records in Hin.
  destruct Hin as (omega & l & Hom & Hl & (Hg & Hf1 & Hf2 & Hq) & Hrec).
  unfold record_of in Hrec. injection Hrec as -> ->.
  repeat split; try assumption.
  exists omega, l. repeat split; assumption.
Qed.

Lemma returned_records_pass_filter_witness :
  193.0 < fst (record_of __init__ (mkC 1 (-1e-6))) /\
  fst (record_of __init__ (mkC 1 (-1e-6))) < 194.0 /\
  snd (record_of __init__ (mkC 1 (-1e-6))) > 1.5e5.
Proof.
  destruct resonant_run_Some as [Hrun Hin].
  destruct (returned_records_pass_filter
              (constant_solver (mkC 1 (-1e-6))) __init__ _ _ _ Hrun Hin)
    as (H1 & H2 & H3 & _).
  split; [exact H1 |]. split; [exact H2 | exact H3].
Defined.

(** X8.  The loop of the scan distributes over a split of the frequency
    axis: scanning two consecutive chunks and concatenating the two result
    lists gives the result of scanning the whole axis. *)
Theorem sweep_of_chunks (eigvals : np.matrix C -> list C)
        (self : BICSimulator) (chunk1 chunk2 : list R) :
  sweep eigvals self (chunk1 ++ chunk2) =
  sweep eigvals self chunk1 ++ sweep eigvals self chunk2.
Proof.
  unfold sweep. rewrite !fold_left_extend. simpl. apply flat_map_app.
Qed.

Lemma length_flat_map_le {A B : Type} (f : A -> list B) (n : nat)
      (l : list A) :
  (forall x, In x l -> (length (f x) <= n)%nat) ->
  (length (flat_map f l) <= length l * n)%nat.
Proof.
  induction l as [|x l IH]; intros Hf; simpl; [lia |].
  rewrite length_app.
  specialize (Hf x (or_introl eq_refl)) as Hx.
  assert (length (flat_map f l) <= length l * n)%nat.
  { apply IH. intros y Hy. apply Hf. right. exact Hy. }
  lia.
Qed.

(** X9.  When the eigen-solver returns at most [n] eigenvalues per matrix,
    the returned collection holds at most 50,000 * n records. *)
Theorem returned_records_count
        (eigvals : np.matrix C -> list C) (self : BICSimulator)
        (n : nat) (results : list (R * R)) :
  (forall omega, (length (eigvals (_build_hamiltonian self omega)) <= n)%nat) ->
  run_simulation eigvals self = Some results ->
  (1 <= length results <= Z.to_nat 50000 * n)%nat.
Proof.
  intros Hn Hrun. apply run_simulation_Some in Hrun.
  destruct Hrun as [-> Hne]. split.
  - destruct (accepted_records eigvals self (omega_range self));
      [contradiction | simpl; lia].
  - unfold accepted_records.
    replace (Z.to_nat 50000) with (length (omega_range self))
      by apply linspace_length.
    apply length_flat_map_le. intros omega _.
    rewrite length_map.
    eapply Nat.le_trans; [apply filter_length_le | apply Hn].
Qed.

Lemma returned_records_count_witness :
  (1 <= length (accepted_records (constant_solver (mkC 1 (-1e-6))) __init__
                                 (omega_range __init__))
   <= Z.to_nat 50000 * 1)%nat.
Proof.
  apply (returned_records_count (constant_solver (mkC 1 (-1e-6))) __init__).
  - intros omega. apply Nat.le_refl.
  - exact (proj1 resonant_run_Some).
Defined.

(** X10.  With a positive reference frequency an accepted eigenvalue has a
    positive real part and a negative imaginary part, and its quality factor
    is [Re l / (-2 Im l)], whatever the reference frequency is. *)
Theorem accepted_eigenvalue_quadrant (self : BICSimulator) (l : C) :
  0 < omega_0 self ->
  accepted self l ->
  0 < Re l /\ Im l < 0 /\ Q_of self l = Re l / (-2 * Im l).
Proof.
  intros H0 Hacc.
  destruct Hacc as (Hg & Hf & _ & _).
  unfold Gamma_n_of in Hg. unfold freq_THz_of, omega_n_of in Hf.
  assert (Him : Im l < 0) by nra.
  assert (Hre : 0 < Re l).
  { pose proof PI_RGT_0 as Hpi.
    assert (Hd : 0 < 2 * PI * 1e12) by lra.
    assert (Hpos : 0 < Re l * omega_0 self).
    { apply (Rmult_lt_reg_r (/ (2 * PI * 1e12))).
      - apply Rinv_0_lt_compat. exact Hd.
      - rewrite Rmult_0_l. unfold Rdiv in Hf. lra. }
    nra. }
  split; [exact Hre |]. split; [exact Him |].
  unfold Q_of, omega_n_of, Gamma_n_of. field. split; lra.
Qed.

Lemma accepted_eigenvalue_quadrant_witness :
  0 < Re (mkC 1 (-1e-6)) /\ Im (mkC 1 (-1e-6)) < 0 /\
  Q_of __init__ (mkC 1 (-1e-6)) = Re (mkC 1 (-1e-6)) / (-2 * Im (mkC 1 (-1e-6))).
Proof.
  exact (accepted_eigenvalue_quadrant __init__ (mkC 1 (-1e-6))
           omega_0_init_pos resonant_eigenvalue_accepted).
Defined.

(** ** The reporter on every input, and after the scan *)

Lemma visualize_nonempty (self : BICSimulator)
      (rec : R * R) (rest : list (R * R)) :
  exists (best : nat) (f q : R),
    nth_error (rec :: rest) best = Some (f, q) /\
    visualize self (Some (rec :: rest)) =
    Ok (NumericalResults f q (f / q * 1e3),
        [scatter (map fst (rec :: rest)) (map snd (rec :: rest))
                 (map log10 (map snd (rec :: rest)));
         colorbar;
         axhline (Q (theoretical self));
         axvline (frequency (theoretical self))]).
Proof.
  destruct (argmax_spec (snd rec) (map snd rest))
    as (best & q & Harg & Hq & _ & _).
  change (snd rec :: map snd rest) with (map snd (rec :: rest)) in *.
  apply nth_error_map_snd in Hq. destruct Hq as [f Hf].
  exists best, f, q. split; [exact Hf |].
  unfold visualize. rewrite Harg, Hf. reflexivity.
Qed.

(** X11.  On [None] and on the array of every non-empty list of records
    [visualize] completes without raising, and the plot calls it issues end
    with the horizontal line at the reference Q and the vertical line at
    the reference frequency, preceded by a scatter plot of all records and
    a colour bar exactly when a collection was given. *)
Theorem visualize_outcomes
        (self : BICSimulator) (results : option (list (R * R))) :
  results <> Some [] ->
  exists pr : printed,
    visualize self results =
    Ok (pr,
        match results with
        | Some rs =>
            [scatter (map fst rs) (map snd rs) (map log10 (map snd rs));
             colorbar]
        | None => []
        end
        ++ [axhline (Q (theoretical self));
            axvline (frequency (theoretical self))]).
Proof.
  intros Hne. destruct results as [[|rec rest]|].
  - contradiction.
  - destruct (visualize_nonempty self rec rest) as (best & f & q & _ & Hv).
    eexists. exact Hv.
  - eexists. reflexivity.
Qed.

Lemma visualize_outcomes_witness :
  exists pr : printed,
    visualize __init__ (Some [(193.2, 2e5); (193.5, 3e5)]) =
    Ok (pr,
        [scatter [193.2; 193.5] [2e5; 3e5] [log10 2e5; log10 3e5];
         colorbar;
         axhline (Q (theoretical __init__));
         axvline (frequency (theoretical __init__))]).
Proof.
  apply (visualize_outcomes __init__ (Some [(193.2, 2e5); (193.5, 3e5)])).
  discriminate.
Defined.

(** X12.  The report that follows the scan in [run] never raises.  When
    the scan returned [None] it is the reference block with the values of
    [self.theoretical] and the two reference lines; when the scan returned
    a collection it is a numerical block for one of the returned records,
    whose frequency lies strictly between 193 and 194 THz, whose Q exceeds
    1.5e5 and whose linewidth [frequency / Q * 1e3] lies strictly between
    0 and 1.3 MHz. *)
Theorem report_after_scan
        (eigvals : np.matrix C -> list C) (self : BICSimulator) :
  match run_simulation eigvals self with
  | None =>
      fst (run eigvals self) =
      Ok (TheoreticalReference (frequency (theoretical self))
                               (Q (theoretical self))
                               (linewidth (theoretical self)),
          [axhline (Q (theoretical self));
           axvline (frequency (theoretical self))])
  | Some results =>
      exists (f q : R) (plots : list plot_cmd),
        fst (run eigvals self) =
        Ok (NumericalResults f q (f / q * 1e3), plots) /\
        In (f, q) results /\
        193.0 < f /\ f < 194.0 /\ q > 1.5e5 /\
        0 < f / q * 1e3 /\ f / q * 1e3 < 1.3
  end.
Proof.
  unfold run. cbn [fst].
  destruct (run_simulation eigvals self) as [results|] eqn:Hrun;
    [| reflexivity].
  destruct (run_simulation_Some eigvals self results Hrun) as [Hres Hne].
  destruct results as [|rec rest]; [contradiction |].
  destruct (visualize_nonempty self rec rest) as (best & f & q & Hb & Hv).
  rewrite Hv. exists f, q. eexists. split; [reflexivity |].
  apply nth_error_In in Hb. split; [exact Hb |].
  rewrite Hres in Hb. apply In_accepted_records in Hb.
  destruct Hb as (omega & l & _ & _ & (_ & Hf1 & Hf2 & Hq) & Hrec).
  unfold record_of in Hrec. injection Hrec as -> ->.
  set (f := freq_THz_of self l) in *. set (q := Q_of self l) in *.
  assert (Hq0 : 0 < q) by lra.
  assert (Hinv : 0 < / q < / 1.5e5).
  { split; [apply Rinv_0_lt_compat; exact Hq0 |].
    apply Rinv_lt_contravar; [| lra]. apply Rmult_lt_0_compat; lra. }
  repeat split; try assumption; unfold Rdiv; nra.
Qed.

(** ** Geometry of the exported library *)

Lemma export_marks (self : BICSimulator) (filename : string) :
  flat_map rectangles_of (snd (export_gds self filename)) =
  alignment_marks self.
Proof.
  unfold export_gds. cbn [snd flat_map]. rewrite rectangles_of_top.
  change (alignment_marks self ++ [] ++ [] = alignment_marks self).
  rewrite !app_nil_r. reflexivity.
Qed.

Lemma placed_disks_of_top (lib : gdspy.GdsLibrary) (nm : string)
      (r : gdspy.CellArray) (marks : list gdspy.Rectangle) :
  placed_disks lib (gdspy.mkCell nm (gdspy.cell_array_ r
                                     :: map gdspy.rectangle_ marks)) =
  placed_disks lib (gdspy.mkCell nm [gdspy.cell_array_ r]).
Proof.
  unfold placed_disks. cbn [gdspy.elements flat_map]. f_equal.
  induction marks as [|m marks IH]; [reflexivity | exact IH].
Qed.

Lemma export_placed_disks (self : BICSimulator) (filename : string) :
  flat_map (placed_disks (snd (export_gds self filename)))
           (snd (export_gds self filename)) =
  map (fun k => ((INR k * a (params self), 0), radius (params self)))
      (seq 0 (N (params self))).
Proof.
  unfold export_gds. cbn [snd flat_map].
  rewrite placed_disks_of_top.
  set (array := gdspy.mkCellArray "DISK" (N (params self)) 1
                                  (a (params self), 0) (0, 0)).
  set (disk := gdspy.mkRound (0, 0) (radius (params self)) 64 1).
  unfold placed_disks, find_cell.
  cbn [gdspy.elements flat_map gdspy.ref_cell array find gdspy.name].
  change (String.eqb "TOP" "DISK") with false.
  change (String.eqb "DISK" "DISK") with true.
  cbn iota. cbn [gdspy.elements flat_map app].
  rewrite !app_nil_r. unfold array. rewrite instances_linear, map_map.
  apply map_ext. intros k. cbn [fst snd gdspy.center gdspy.disk_radius disk].
  f_equal. f_equal; ring.
Qed.

(** X13.  In the exported library the array reference of TOP resolves to
    the cell DISK and places N disks of the scatterer radius centred at
    [(k a, 0)], and for a positive pitch and a radius below three quarters
    of the pitch no alignment mark touches the bounding box of any disk. *)
Theorem marks_clear_of_disks (self : BICSimulator) (filename : string) :
  0 < a (params self) ->
  radius (params self) < 0.75 * a (params self) ->
  let lib := snd (export_gds self filename) in
  flat_map (placed_disks lib) lib =
  map (fun k => ((INR k * a (params self), 0), radius (params self)))
      (seq 0 (N (params self))) /\
  forall (m : gdspy.Rectangle) (d : gdspy.point * R),
    In m (flat_map rectangles_of lib) ->
    In d (flat_map (placed_disks lib) lib) ->
    mark_clear_of_disk m d.
Proof.
  intros Ha Hrad lib. unfold lib.
  split; [apply export_placed_disks |].
  intros m d Hm Hd.
  rewrite export_marks in Hm. rewrite export_placed_disks in Hd.
  apply in_map_iff in Hd. destruct Hd as (k & <- & Hk).
  apply in_seq in Hk.
  assert (Hk0 : 0 <= INR k * a (params self)).
  { apply Rmult_le_pos; [apply pos_INR | lra]. }
  assert (HkN : INR k * a (params self) + a (params self)
                <= INR (N (params self)) * a (params self)).
  { assert (INR k + 1 <= INR (N (params self))).
    { rewrite <- S_INR. apply le_INR. lia. }
    nra. }
  rewrite alignment_marks_explicit in Hm. cbv zeta in Hm.
  unfold mark_clear_of_disk. cbn [fst snd].
  set (a0 := a (params self)) in *.
  set (na := INR (N (params self)) * a0) in *.
  set (ka := INR k * a0) in *.
  set (rad := radius (params self)) in *.
  simpl in Hm.
  repeat (destruct Hm as [<- | Hm]; [cbn [gdspy.point1 gdspy.point2 fst snd]; lra |]).
  contradiction.
Qed.

Lemma marks_clear_of_disks_witness :
  0 < a (params __init__) /\
  radius (params __init__) < 0.75 * a (params __init__) /\
  Forall
    (fun m =>
       Forall (mark_clear_of_disk m)
              (flat_map
                 (placed_disks (snd (export_gds __init__ default_filename)))
                 (snd (export_gds __init__ default_filename))))
    (flat_map rectangles_of (snd (export_gds __init__ default_filename))).
Proof.
  assert (Ha : 0 < a (params __init__)) by (simpl; lra).
  assert (Hr : radius (params __init__) < 0.75 * a (params __init__))
    by (simpl; lra).
  split; [exact Ha |]. split; [exact Hr |].
  apply Forall_forall. intros m Hm. apply Forall_forall. intros d Hd.
  exact (proj2 (marks_clear_of_disks __init__ default_filename Ha Hr)
               m d Hm Hd).
Defined.

(** ** The diagnostics of [run] *)

Lemma np_diag_from_spec {A : Type} (g : nat -> A) (M : np.matrix A) :
  forall k : nat,
    (forall i : nat,
        (i < length M)%nat -> np.entry M i (k + i) = Some (g (k + i)%nat)) ->
    np_diag_from k M = map g (seq k (length M)).
Proof.
  induction M as [|row rest IH]; intros k Hent; [reflexivity |].
  cbn [np_diag_from length seq map].
  pose proof (Hent 0%nat (Nat.lt_0_succ _)) as H0.
  unfold np.entry in H0. cbn [nth_error] in H0.
  rewrite Nat.add_0_r in H0. rewrite H0. f_equal.
  apply IH. intros i Hi.
  specialize (Hent (S i)). unfold np.entry in *. cbn [nth_error] in Hent.
  replace (k + S i)%nat with (S k + i)%nat in Hent by lia.
  apply Hent. simpl. lia.
Qed.

Lemma build_hamiltonian_diag (self : BICSimulator) (omega : R) :
  np_diag (_build_hamiltonian self omega) =
  repeat (H_entry self omega 0 0) (N (params self)).
Proof.
  unfold np_diag.
  rewrite (np_diag_from_spec (fun i => H_entry self omega i i)).
  - rewrite build_hamiltonian_length.
    generalize (N (params self)) as n. intros n.
    generalize 0%nat at 1 as k.
    induction n as [|n IH]; intros k; [reflexivity |].
    cbn [seq map repeat]. rewrite IH. f_equal.
    apply H_entry_same_distance. lia.
  - intros i Hi. rewrite build_hamiltonian_length in Hi.
    rewrite entry_build_hamiltonian. apply Nat.ltb_lt in Hi.
    cbn [Nat.add]. rewrite Hi. reflexivity.
Qed.

Lemma Csum_repeat (d : C) (n : nat) :
  Csum (repeat d n) = mkC (INR n * Re d) (INR n * Im d).
Proof.
  induction n as [|n IH].
  - apply C_eq; simpl; ring.
  - cbn [repeat Csum fold_right]. fold (Csum (repeat d n)). rewrite IH.
    rewrite S_INR. apply C_eq; simpl; ring.
Qed.

Lemma Rsum_repeat_0 (n : nat) : Rsum (repeat 0 n) = 0.
Proof.
  induction n as [|n IH]; [reflexivity |].
  cbn [repeat Rsum fold_right]. fold (Rsum (repeat 0 n)). rewrite IH. ring.
Qed.

Lemma np_std_repeat (d : C) (n : nat) :
  (1 <= n)%nat -> np_std (repeat d n) = 0.
Proof.
  intros Hn. unfold np_std. rewrite repeat_length, Csum_repeat.
  assert (Hn0 : INR n <> 0) by (apply not_0_INR; lia).
  assert (Hmean : Cdiv (mkC (INR n * Re d) (INR n * Im d)) (RtoC (INR n)) = d).
  { apply C_eq; simpl; field; exact Hn0. }
  rewrite Hmean, !map_repeat.
  replace (Re (Cmul (Csub d d) (Cconj (Csub d d)))) with 0 by (simpl; ring).
  rewrite Rsum_repeat_0. unfold Rdiv. rewrite Rmult_0_l. apply sqrt_0.
Qed.

(** X14.  The diagonal standard deviation printed by [run] is zero for every
    structure with at least one unit cell: all diagonal entries of the
    Hamiltonian are the same complex number. *)
Theorem diagonal_std_is_zero (cond : np.matrix C -> R) (self : BICSimulator) :
  (1 <= N (params self))%nat ->
  np_diag (_build_hamiltonian self (omega_0 self)) =
  repeat (H_entry self (omega_0 self) 0 0) (N (params self)) /\
  snd (fst (hamiltonian_analysis cond self)) = 0.
Proof.
  intros HN. split; [apply build_hamiltonian_diag |].
  unfold hamiltonian_analysis. cbn [fst snd].
  rewrite build_hamiltonian_diag. apply np_std_repeat. exact HN.
Qed.

Lemma diagonal_std_is_zero_witness :
  snd (fst (hamiltonian_analysis (fun _ => 1) __init__)) = 0.
Proof.
  apply (diagonal_std_is_zero (fun _ => 1) __init__). simpl. lia.
Defined.

Lemma In_skipn_nth_error {A : Type} (x : A) :
  forall (k : nat) (l : list A),
    In x (skipn k l) ->
    exists j : nat, (k <= j)%nat /\ nth_error l j = Some x.
Proof.
  induction k as [|k IH]; intros l Hin.
  - apply In_nth_error in Hin. destruct Hin as [j Hj].
    exists j. split; [lia | exact Hj].
  - destruct l as [|y l]; [contradiction |].
    destruct (IH l Hin) as (j & Hj & Hn).
    exists (S j). split; [lia | exact Hn].
Qed.

Lemma In_np_triu_from {A : Type} (x : A) (M : np.matrix A) :
  forall k : nat,
    In x (np_triu_from k M) ->
    exists i j : nat, (k + i <= j)%nat /\ np.entry M i j = Some x.
Proof.
  induction M as [|row rest IH]; intros k Hin; [contradiction |].
  cbn [np_triu_from] in Hin. apply in_app_or in Hin.
  destruct Hin as [Hin | Hin].
  - destruct (In_skipn_nth_error x k row Hin) as (j & Hj & Hn).
    exists 0%nat, j. split; [lia | exact Hn].
  - destruct (IH (S k) Hin) as (i & j & Hij & He).
    exists (S i), j. split; [lia | exact He].
Qed.

Lemma Rsum_bounds (lo hi : R) (l : list R) :
  (forall x, In x l -> lo <= x <= hi) ->
  INR (length l) * lo <= Rsum l <= INR (length l) * hi.
Proof.
  induction l as [|x l IH]; intros Hb.
  - simpl. lra.
  - cbn [Rsum fold_right]. fold (Rsum l).
    change (length (x :: l)) with (S (length l)). rewrite S_INR.
    pose proof (Hb x (or_introl eq_refl)) as Hx.
    assert (Hl : INR (length l) * lo <= Rsum l <= INR (length l) * hi).
    { apply IH. intros y Hy. apply Hb. right. exact Hy. }
    lra.
Qed.

Lemma np_mean_bounds (lo hi : R) (l : list R) :
  l <> [] ->
  (forall x, In x l -> lo < x <= hi) ->
  lo < np_mean l <= hi.
Proof.
  intros Hne Hb. destruct l as [|x l]; [contradiction |].
  unfold np_mean. cbn [Rsum fold_right]. fold (Rsum l).
  change (length (x :: l)) with (S (length l)). rewrite S_INR.
  pose proof (Hb x (or_introl eq_refl)) as Hx.
  assert (Hl : INR (length l) * lo <= Rsum l <= INR (length l) * hi).
  { apply Rsum_bounds. intros y Hy.
    destruct (Hb y (or_intror Hy)). lra. }
  pose proof (pos_INR (length l)) as Hn.
  assert (Hpos : 0 < INR (length l) + 1) by lra.
  split.
  - apply (Rmult_lt_reg_r (INR (length l) + 1)); [exact Hpos |].
    unfold Rdiv. rewrite Rmult_assoc, Rinv_l by lra. lra.
  - apply (Rmult_le_reg_r (INR (length l) + 1)); [exact Hpos |].
    unfold Rdiv. rewrite Rmult_assoc, Rinv_l by lra. lra.
Qed.

Lemma coupling_magnitude_pos (self : BICSimulator) (r : R) :
  0 < a (params self) -> 0 < radius (params self) -> 0 <= r ->
  0 < 0.62 * (radius (params self) ^ 3
              / (r ^ 3 + (0.114 * a (params self)) ^ 3)).
Proof.
  intros Ha Hrad Hr.
  pose proof (denominator_pos self r Ha Hr) as Hden.
  pose proof (cube_pos _ Hrad) as Hnum.
  assert (0 < radius (params self) ^ 3
              / (r ^ 3 + (0.114 * a (params self)) ^ 3))
    by (apply Rdiv_lt_0_compat; assumption).
  lra.
Qed.

Lemma upper_entry_modulus_bounds (self : BICSimulator) (omega : R)
      (i j : nat) :
  lambda_0 (params self) <> 0 ->
  0 < a (params self) -> 0 < radius (params self) ->
  (1 + i <= j)%nat ->
  0 < Cabs (H_entry self omega i j)
  <= 0.62 * (radius (params self) ^ 3
             / (a (params self) ^ 3 + (0.114 * a (params self)) ^ 3)).
Proof.
  intros Hl Ha Hrad Hij.
  rewrite H_entry_offdiagonal by (try assumption; lia).
  assert (Hd : 1 <= Rabs (INR i - INR j)).
  { rewrite Rabs_left1.
    - assert (INR i + 1 <= INR j) by (rewrite <- S_INR; apply le_INR; lia).
      lra.
    - assert (INR i <= INR j) by (apply le_INR; lia). lra. }
  rewrite Cabs_coupling_term
    by (try assumption; try lra; apply distance_nonneg; assumption).
  split.
  - apply coupling_magnitude_pos; try assumption.
    apply distance_nonneg. assumption.
  - destruct Hd as [Hlt | Heq].
    + left. apply coupling_magnitude_decreasing; try assumption; nra.
    + right. rewrite <- Heq, Rmult_1_r. reflexivity.
Qed.

Lemma build_hamiltonian_triu_nonempty (self : BICSimulator) (omega : R) :
  (2 <= N (params self))%nat ->
  np_triu_k1 (_build_hamiltonian self omega) <> [].
Proof.
  intros HN.
  pose proof (build_hamiltonian_length self omega) as Hlen.
  destruct (_build_hamiltonian self omega) as [|row rest] eqn:HH;
    [simpl in Hlen; lia |].
  assert (Hrow : length row = N (params self)).
  { apply (build_hamiltonian_row_length self omega).
    rewrite HH. left. reflexivity. }
  unfold np_triu_k1. cbn [np_triu_from].
  destruct row as [|x [|y row]]; simpl in Hrow; try lia.
  simpl. discriminate.
Qed.

(** X15.  In exact arithmetic the mean off-diagonal magnitude computed in
    the diagnostics of [run] is positive and at most the nearest-neighbour
    coupling [0.62 * radius^3 / (a^3 + (0.114 a)^3)], for a structure of at
    least two cells whose pitch, radius and design wavelength all lie
    between a nanometre and a millimetre and whose reference frequency is
    not zero. *)
Theorem offdiagonal_mean_bounds
        (cond : np.matrix C -> R) (self : BICSimulator) :
  physical_lengths self ->
  omega_0 self <> 0 ->
  (2 <= N (params self))%nat ->
  0 < snd (hamiltonian_analysis cond self)
  <= 0.62 * (radius (params self) ^ 3
             / (a (params self) ^ 3 + (0.114 * a (params self)) ^ 3)).
Proof.
  intros Hphys _ HN.
  destruct (physical_lengths_pos self Hphys) as (Ha & Hrad & Hl).
  unfold hamiltonian_analysis. cbn [snd].
  apply np_mean_bounds.
  - intros E. apply map_eq_nil in E.
    exact (build_hamiltonian_triu_nonempty self (omega_0 self) HN E).
  - intros x Hx. apply in_map_iff in Hx. destruct Hx as (h & <- & Hh).
    destruct (In_np_triu_from h _ 1%nat Hh) as (i & j & Hij & He).
    rewrite entry_build_hamiltonian in He.
    destruct (Nat.ltb i (N (params self)) && Nat.ltb j (N (params self)));
      [| discriminate].
    injection He as <-.
    apply upper_entry_modulus_bounds; assumption.
Qed.

Lemma offdiagonal_mean_bounds_witness :
  0 < snd (hamiltonian_analysis (fun _ => 1) __init__)
  <= 0.62 * (202e-9 ^ 3 / (600e-9 ^ 3 + (0.114 * 600e-9) ^ 3)).
Proof.
  apply (offdiagonal_mean_bounds (fun _ => 1) __init__
                                 physical_lengths_init).
  - pose proof omega_0_init_pos. lra.
  - simpl. lia.
Defined.

(** ** Eigenvalues at different frequencies *)

Lemma build_hamiltonian_tabulated (self : BICSimulator) (omega : R) :
  _build_hamiltonian self omega =
  map (fun i => map (H_entry self omega i) (seq 0 (N (params self))))
      (seq 0 (N (params self))).
Proof.
  apply nth_error_ext. intros i.
  rewrite nth_error_map, nth_error_seq.
  destruct (nth_error (_build_hamiltonian self omega) i) as [row|] eqn:Hrow.
  - destruct (build_hamiltonian_row self omega i row Hrow) as [Hi Hr].
    apply Nat.ltb_lt in Hi. rewrite Hi. cbn [option_map Nat.add]. f_equal.
    apply nth_error_ext. intros j.
    rewrite Hr, nth_error_map, nth_error_seq.
    destruct (Nat.ltb j (N (params self))); reflexivity.
  - apply nth_error_None in Hrow. rewrite build_hamiltonian_length in Hrow.
    replace (Nat.ltb i (N (params self))) with false
      by (symmetry; apply Nat.ltb_ge; exact Hrow).
    reflexivity.
Qed.

Lemma H_entry_shift (self : BICSimulator) (omega : R) (i j : nat) :
  H_entry self omega i j =
  Cadd (if Nat.eqb i j
        then Cmul (RtoC ((omega / omega_0 self) ^ 2)) (epsilon (params self))
        else C0)
       (H_entry self 0 i j).
Proof.
  unfold H_entry. destruct (Nat.eqb i j).
  - rewrite (diag_split self omega). apply C_eq; simpl; ring.
  - apply C_eq; simpl; ring.
Qed.

Lemma dot_cons (x y : C) (row v : list C) :
  dot (x :: row) (y :: v) = Cadd (Cmul x y) (dot row v).
Proof. reflexivity. Qed.

Lemma dot_shift (c : C) (i : nat) (g : nat -> C) :
  forall (n k : nat) (v : list C),
    length v = n ->
    dot (map (fun j => Cadd (if Nat.eqb i j then c else C0) (g j)) (seq k n)) v
    = Cadd (dot (map g (seq k n)) v)
           (if Nat.leb k i && Nat.ltb i (k + n)
            then Cmul c (nth (i - k) v C0) else C0).
Proof.
  induction n as [|n IH]; intros k v Hlen.
  - destruct v; [| discriminate]. cbn [seq map].
    replace (Nat.leb k i && Nat.ltb i (k + 0)) with false.
    + apply C_eq; simpl; ring.
    + symmetry. apply andb_false_iff.
      destruct (Nat.leb_spec k i); [right; apply Nat.ltb_ge; lia | left; reflexivity].
  - destruct v as [|y v]; [discriminate |]. injection Hlen as Hlen.
    cbn [seq map]. rewrite !dot_cons, (IH (S k) v Hlen).
    destruct (Nat.eqb_spec i k) as [-> | Hne].
    + replace (Nat.leb (S k) k && Nat.ltb k (S k + n)) with false
        by (symmetry; apply andb_false_iff; left; apply Nat.leb_gt; lia).
      replace (Nat.leb k k && Nat.ltb k (k + S n)) with true
        by (symmetry; apply andb_true_iff; split;
            [apply Nat.leb_le; lia | apply Nat.ltb_lt; lia]).
      rewrite Nat.sub_diag. cbn [nth]. apply C_eq; simpl; ring.
    + destruct (Nat.leb_spec (S k) i) as [Hle | Hgt].
      * replace (Nat.leb k i) with true by (symmetry; apply Nat.leb_le; lia).
        replace (Nat.ltb i (k + S n)) with (Nat.ltb i (S k + n))
          by (f_equal; lia).
        replace (i - k)%nat with (S (i - S k)) by lia. cbn [nth andb].
        destruct (Nat.ltb i (S k + n)); apply C_eq; simpl; ring.
      * replace (Nat.leb k i) with false by (symmetry; apply Nat.leb_gt; lia).
        cbn [andb]. apply C_eq; simpl; ring.
Qed.

Lemma map_nth_seq {A B : Type} (f : A -> B) (d : A) (v : list A) :
  map f v = map (fun i => f (nth i v d)) (seq 0 (length v)).
Proof.
  apply nth_error_ext. intros n.
  rewrite !nth_error_map, nth_error_seq.
  destruct (Nat.ltb_spec n (length v)) as [Hlt | Hge].
  - rewrite (nth_error_nth' v d Hlt). reflexivity.
  - rewrite (proj2 (nth_error_None v n) Hge). reflexivity.
Qed.

Lemma mat_vec_tabulated (self : BICSimulator) (omega : R) (v : list C) :
  mat_vec (_build_hamiltonian self omega) v =
  map (fun i => dot (map (H_entry self omega i) (seq 0 (N (params self)))) v)
      (seq 0 (N (params self))).
Proof.
  rewrite build_hamiltonian_tabulated. unfold mat_vec.
  rewrite map_map. reflexivity.
Qed.

Lemma mat_vec_shift (self : BICSimulator) (omega : R) (v : list C) :
  length v = N (params self) ->
  mat_vec (_build_hamiltonian self omega) v =
  map (fun i =>
         Cadd (dot (map (H_entry self 0 i) (seq 0 (N (params self)))) v)
              (Cmul (Cmul (RtoC ((omega / omega_0 self) ^ 2))
                          (epsilon (params self)))
                    (nth i v C0)))
      (seq 0 (N (params self))).
Proof.
  intros Hlen. rewrite mat_vec_tabulated. apply map_ext_in. intros i Hi.
  apply in_seq in Hi.
  rewrite (map_ext (H_entry self omega i) _ (H_entry_shift self omega i)).
  rewrite (dot_shift _ i (H_entry self 0 i) _ 0%nat v Hlen).
  replace (Nat.leb 0 i && Nat.ltb i (0 + N (params self))) with true
    by (symmetry; apply andb_true_iff; split;
        [apply Nat.leb_le; lia | apply Nat.ltb_lt; lia]).
  rewrite Nat.sub_0_r. reflexivity.
Qed.

Lemma Cshift_equation (x c l y : C) :
  Cadd x (Cmul c y) = Cmul l y <-> x = Cmul (Csub l c) y.
Proof.
  destruct x as [x1 x2], c as [c1 c2], l as [l1 l2], y as [y1 y2].
  unfold Cadd, Cmul, Csub; cbn [Re Im]. split; intros E.
  - injection E as E1 E2. f_equal; lra.
  - injection E as -> ->. f_equal; ring.
Qed.

Lemma eigen_equation_shift (self : BICSimulator) (omega : R)
      (l : C) (v : list C) :
  length v = N (params self) ->
  mat_vec (_build_hamiltonian self omega) v = map (Cmul l) v <->
  mat_vec (_build_hamiltonian self 0) v =
  map (Cmul (Csub l (Cmul (RtoC ((omega / omega_0 self) ^ 2))
                          (epsilon (params self))))) v.
Proof.
  intros Hlen.
  rewrite (mat_vec_shift self omega v Hlen), (mat_vec_tabulated self 0 v).
  rewrite (map_nth_seq (Cmul l) C0 v).
  rewrite (map_nth_seq (Cmul (Csub l _)) C0 v).
  rewrite Hlen, !map_ext_in_iff.
  split; intros H i Hi; specialize (H i Hi); apply Cshift_equation; exact H.
Qed.

(** X16.  Changing the frequency only shifts the spectrum and keeps the
    eigenvectors: [v] is an eigenvector of the Hamiltonian built at [omega]
    for the eigenvalue [l] exactly when it is an eigenvector of the
    Hamiltonian built at frequency zero for the eigenvalue
    [l - (omega/omega_0)^2 * epsilon]; hence [l] is an eigenvalue at [omega]
    exactly when [l - (omega/omega_0)^2 * epsilon] is one at frequency
    zero. *)
Theorem eigenvalues_shift_with_frequency
        (self : BICSimulator) (omega : R) (l : C) :
  (forall v : list C,
      is_eigenvector (_build_hamiltonian self omega) l v <->
      is_eigenvector (_build_hamiltonian self 0)
                     (Csub l (Cmul (RtoC ((omega / omega_0 self) ^ 2))
                                   (epsilon (params self)))) v) /\
  (forall l' : C, forall M : np.matrix C,
      is_eigenvalue M l' <-> exists v, is_eigenvector M l' v) /\
  (is_eigenvalue (_build_hamiltonian self omega) l <->
   is_eigenvalue (_build_hamiltonian self 0)
                 (Csub l (Cmul (RtoC ((omega / omega_0 self) ^ 2))
                               (epsilon (params self))))).
Proof.
  assert (Hvec : forall v : list C,
             is_eigenvector (_build_hamiltonian self omega) l v <->
             is_eigenvector (_build_hamiltonian self 0)
                            (Csub l (Cmul (RtoC ((omega / omega_0 self) ^ 2))
                                          (epsilon (params self)))) v).
  { intros v. unfold is_eigenvector. rewrite !build_hamiltonian_length.
    split; intros (Hlen & Hnz & Heq);
      (split; [exact Hlen |]); (split; [exact Hnz |]);
      apply (eigen_equation_shift self omega l v Hlen); exact Heq. }
  split; [exact Hvec |].
  split; [intros l' M; reflexivity |].
  split; intros (v & Hv); exists v; apply Hvec; exact Hv.
Qed.

(** ** Units of the reported frequency *)

(** X17.  For a simulator built by [__init__] the factor 2 pi cancels
    between the reference frequency and the conversion to THz: an eigenvalue
    [l] is reported at [Re l * c / (lambda_0 * 1e12)] THz, so that an
    eigenvalue of real part 1 sits at the design frequency [c / lambda_0]. *)
Theorem frequency_of_eigenvalue (p : params_t) (l : C) :
  lambda_0 p <> 0 ->
  omega_0 (new_simulator p) * lambda_0 p = 2 * PI * c /\
  freq_THz_of (new_simulator p) l = Re l * c / (lambda_0 p * 1e12).
Proof.
  intros Hl. pose proof PI_RGT_0 as Hpi. split.
  - simpl. field. exact Hl.
  - unfold freq_THz_of, omega_n_of. simpl. field. split; [exact Hl | lra].
Qed.

Lemma frequency_of_eigenvalue_witness :
  freq_THz_of __init__ (mkC 1 (-1e-6)) = 1 * c / (1550e-9 * 1e12).
Proof.
  refine (proj2 (frequency_of_eigenvalue (params __init__) (mkC 1 (-1e-6)) _)).
  simpl. lra.
Defined.

(** ** The file written for the certified structure *)

Lemma Rabs_le_bounds (x b : R) : Rabs x <= b -> - b <= x <= b.
Proof. unfold Rabs. destruct (Rcase_abs x); lra. Qed.

Lemma stored_as_zero (x : R) (n : Z) :
  Rabs x <= 1e-4 -> stored_as x n -> n = 0%Z.
Proof.
  unfold stored_as, database_units, gds_unit, gds_precision.
  intros Hx Hn.
  apply Rabs_le_bounds in Hx. apply Rabs_le_bounds in Hn.
  assert (Hd : x * (1e-6 / 1e-9) = x * 1000) by (field_simplify; lra).
  rewrite Hd in Hn.
  assert (Hlo : (-1 < n)%Z) by (apply lt_IZR; lra).
  assert (Hhi : (n < 1)%Z) by (apply lt_IZR; lra).
  lia.
Qed.

Lemma round_vertices_small (d : gdspy.Round) (pt : gdspy.point) :
  gdspy.center d = (0, 0) -> 0 <= gdspy.disk_radius d <= 1e-4 ->
  In pt (round_vertices d) ->
  Rabs (fst pt) <= 1e-4 /\ Rabs (snd pt) <= 1e-4.
Proof.
  intros Hc Hr Hin. unfold round_vertices in Hin.
  apply in_map_iff in Hin. destruct Hin as (k & <- & _).
  rewrite Hc. cbn [fst snd].
  set (t := 2 * PI * INR k / INR (Z.to_nat (gdspy.number_of_points d))).
  pose proof (COS_bound t) as [Hc1 Hc2].
  pose proof (SIN_bound t) as [Hs1 Hs2].
  split; apply Rabs_le; split; nra.
Qed.

Lemma certified_marks_small (m : gdspy.Rectangle) (x : R) :
  In m (alignment_marks __init__) ->
  In x (element_coordinates (gdspy.rectangle_ m)) ->
  Rabs x <= 1e-4.
Proof.
  intros Hm Hx. rewrite alignment_marks_explicit in Hm. cbv zeta in Hm.
  change (a (params __init__)) with 600e-9 in Hm.
  change (N (params __init__)) with 20%nat in Hm.
  replace (INR 20) with 20 in Hm by (simpl; lra).
  simpl in Hm.
  repeat (destruct Hm as [<- | Hm];
          [simpl in Hx;
           repeat (destruct Hx as [<- | Hx]; [apply Rabs_le; lra |]);
           contradiction |]).
  contradiction.
Qed.

Lemma certified_coordinates_small (x : R) :
  In x (library_coordinates (snd (export_gds __init__ default_filename))) ->
  Rabs x <= 1e-4.
Proof.
  unfold library_coordinates, export_gds.
  cbn [snd flat_map gdspy.elements]. rewrite app_nil_r.
  intros Hin. apply in_app_or in Hin. destruct Hin as [Hin | Hin].
  - apply in_app_or in Hin. destruct Hin as [Hin | Hin].
    + change (N (params __init__)) with 20%nat in Hin.
      change (a (params __init__)) with 600e-9 in Hin.
      cbn [element_coordinates gdspy.origin gdspy.columns gdspy.rows
           gdspy.spacing fst snd] in Hin.
      replace (INR 20) with 20 in Hin by (simpl; lra).
      replace (INR 1) with 1 in Hin by (simpl; lra).
      repeat (destruct Hin as [<- | Hin]; [apply Rabs_le; lra |]).
      contradiction.
    + apply in_flat_map in Hin. destruct Hin as (e & He & Hx).
      apply in_map_iff in He. destruct He as (m & <- & Hm).
      exact (certified_marks_small m x Hm Hx).
  - rewrite app_nil_r in Hin.
    cbn [element_coordinates] in Hin.
    apply in_flat_map in Hin. destruct Hin as (pt & Hpt & Hx).
    apply round_vertices_small in Hpt.
    + destruct Hpt as [H1 H2].
      destruct Hx as [<- | [<- | []]]; assumption.
    + reflexivity.
    + change (gdspy.disk_radius _) with 202e-9. lra.
Qed.

Lemma certified_mark_centres :
  map centre (alignment_marks __init__) =
  [ (- 600e-9, - 300e-9); (- 300e-9, - 600e-9);
    (- 600e-9, 300e-9); (300e-9, - 600e-9);
    (20 * 600e-9, - 300e-9); (- 300e-9, 20 * 600e-9);
    (20 * 600e-9, 300e-9); (300e-9, 20 * 600e-9) ].
Proof.
  rewrite alignment_marks_explicit. cbv zeta.
  change (a (params __init__)) with 600e-9.
  change (N (params __init__)) with 20%nat.
  replace (INR 20) with 20 by (simpl; lra).
  unfold centre. cbn [map gdspy.point1 gdspy.point2 fst snd].
  repeat (f_equal; try lra).
Qed.

(** C2.  What [export_gds] does at the certified parameters (a = 600e-9,
    radius = 202e-9, N = 20, default file name).  The cell TOP receives
    eight rectangles, not four: four bars centred at the ends of the array,
    [(x, y)] with [x] in [-a, N a] and [y] in [-a/2, a/2], and four bars
    centred at the transposed points [(y, x)], two of them twenty pitches
    away from the axis of the one-row array.  And since the lengths are
    given in metres to a library whose unit is 1e-6 m and whose precision
    is 1e-9 m, every coordinate of the library is stored in the file as the
    integer 0: the file holds neither the radius nor the pitch. *)
Theorem export_gds_certified_defects :
  length (flat_map rectangles_of
                   (snd (export_gds __init__ default_filename))) = 8%nat /\
  map centre (flat_map rectangles_of
                       (snd (export_gds __init__ default_filename))) =
  [ (- 600e-9, - 300e-9); (- 300e-9, - 600e-9);
    (- 600e-9, 300e-9); (300e-9, - 600e-9);
    (20 * 600e-9, - 300e-9); (- 300e-9, 20 * 600e-9);
    (20 * 600e-9, 300e-9); (300e-9, 20 * 600e-9) ] /\
  In 202e-9 (library_coordinates (snd (export_gds __init__ default_filename)))
  /\
  In (20 * 600e-9)
     (library_coordinates (snd (export_gds __init__ default_filename))) /\
  (forall (x : R) (n : Z),
      In x (library_coordinates (snd (export_gds __init__ default_filename))) ->
      stored_as x n -> n = 0%Z).
Proof.
  split.
  { rewrite export_marks. reflexivity. }
  split.
  { rewrite export_marks. apply certified_mark_centres. }
  split.
  { unfold library_coordinates, export_gds.
    cbn [snd flat_map gdspy.elements]. rewrite !app_nil_r.
    apply in_or_app. right. cbn [element_coordinates].
    apply in_flat_map.
    exists (0 + 202e-9 * cos (2 * PI * INR 0 / INR 64),
            0 + 202e-9 * sin (2 * PI * INR 0 / INR 64)).
    split.
    - unfold round_vertices.
      change (Z.to_nat (gdspy.number_of_points _)) with 64%nat.
      apply in_map_iff. exists 0%nat. split; [reflexivity |].
      apply in_seq. lia.
    - left. cbn [fst]. unfold Rdiv. cbn [INR].
      rewrite !Rmult_0_r, Rmult_0_l, cos_0. ring. }
  split.
  { unfold library_coordinates, export_gds.
    cbn [snd flat_map gdspy.elements]. rewrite !app_nil_r.
    apply in_or_app. left. apply in_or_app. left.
    cbn [element_coordinates gdspy.origin gdspy.columns gdspy.rows
         gdspy.spacing fst snd].
    right. right. left.
    change (N (params __init__)) with 20%nat.
    change (a (params __init__)) with 600e-9.
    replace (INR 20) with 20 by (simpl; lra). ring. }
  intros x n Hin Hst.
  apply (stored_as_zero x n); [apply certified_coordinates_small |];
    assumption.
Qed.
